(** * coalib.bearlib.abstractions.Linter

    A shallow embedding of the [Linter] decorator of
    [coalib/bearlib/abstractions/Linter.py] and of the bear class it
    generates, together with the properties its design document states
    about them.

    Python dictionaries are [gmap]s, sets are [gset]s, exceptions are the
    [Raise] outcome of an error monad, and a generator is the list of the
    values it yields together with the exception that ends it, if any. *)

From stdpp Require Import gmap strings list fin_maps pretty.
From Stdlib Require Import ZArith Ascii.

Open Scope Z_scope.

#[local] Set Warnings "-clear-no-such-hyp".

(** ** Python values *)

(** The immutable values that reach the code: [None], booleans, integers
    and strings. Characters of a string are code points below 256. *)
Inductive atom :=
| ANone
| ABool (b : bool)
| AInt (z : Z)
| AStr (s : string).

#[global] Instance atom_eq_dec : EqDecision atom.
Proof. solve_decision. Defined.

Definition atom_encode (a : atom) : unit + bool + Z + string :=
  match a with
  | ANone => inl (inl (inl tt))
  | ABool b => inl (inl (inr b))
  | AInt z => inl (inr z)
  | AStr s => inr s
  end.

Definition atom_decode (x : unit + bool + Z + string) : atom :=
  match x with
  | inl (inl (inl _)) => ANone
  | inl (inl (inr b)) => ABool b
  | inl (inr z) => AInt z
  | inr s => AStr s
  end.

#[global] Instance atom_countable : Countable atom.
Proof. apply (inj_countable' atom_encode atom_decode). by intros []. Defined.

(** [match.groupdict()]: every named group of the pattern, with the text
    it captured, or [None] when the group took no part in the match. *)
Abbreviation Match := (gmap string (option string)).

(** A compiled pattern object of the [re] module, seen through the two
    members the code uses: [groupindex] (the declared named groups) and
    [finditer] (the non-overlapping matches in a text, left to right). *)
Record Pattern := {
  groupindex : gset string;
  finditer : string → list Match
}.

(** Option values: atoms, dictionaries of atoms ([severity_map]) and
    compiled patterns. *)
Inductive value :=
| VAtom (a : atom)
| VDict (d : gmap atom atom)
| VPattern (p : Pattern).

Abbreviation VNone := (VAtom ANone).
Abbreviation VBool b := (VAtom (ABool b)).
Abbreviation VInt z := (VAtom (AInt z)).
Abbreviation VStr s := (VAtom (AStr s)).

(** ** Exceptions *)

(** What an exception says; the texts of the source are kept in the
    comments, the part that varies is the argument. *)
Inductive error_message :=
| NoOutputRegex                  (* No `output_regex` specified. *)
| SeverityMapUnused              (* Provided `severity_map` but named group
                                    `severity` is not used in `output_regex`. *)
| InvalidKeyword (key : string)  (* Invalid keyword argument <key> provided. *)
| InvalidDiffSeverity (v : value) (* Invalid value for `diff_severity`: <v> *)
| WrongType (name : string)      (* assert_right_type(value, types, name) *)
| Unhashable                     (* unhashable type: 'dict' *)
| InvalidLiteral (s : string)    (* invalid literal for int() with base 10 *)
| IntOfNone                      (* int() argument must be a string, ... *)
| NotAPattern (v : value).       (* re.compile: first argument must be string
                                    or compiled pattern *)

Inductive exn :=
| KeyError (key : string)
| ValueError (m : error_message)
| TypeError (m : error_message)
| AttributeError (name : string)
| ReError (pattern : string)     (* re.error: the pattern does not compile *)
| OSError (argv : list string)   (* the process could not be started *)
| DiagnosticError.               (* a Diagnostic refused by its constructor *)

Inductive outcome (A : Type) :=
| Return (a : A)
| Raise (e : exn).
Arguments Return {A} a.
Arguments Raise {A} e.

#[global] Instance outcome_ret : MRet outcome := @Return.
#[global] Instance outcome_bind : MBind outcome := λ A B f m,
  match m with
  | Return a => f a
  | Raise e => Raise e
  end.

(** A generator, run to its end: the values yielded, and the exception
    that stopped it when it did not finish. *)
Definition generator (A : Type) : Type := list A * option exn.

(** [for x in xs: yield f(x)] *)
Fixpoint yield_each {A B} (f : A → outcome B) (xs : list A) : generator B :=
  match xs with
  | [] => ([], None)
  | x :: xs' =>
      match f x with
      | Return b => let '(bs, e) := yield_each f xs' in (b :: bs, e)
      | Raise e => ([], Some e)
      end
  end.

(** ** The Python runtime and the modules outside the repository *)

(** [coalib.results.RESULT_SEVERITY] is not among the sources: the three
    levels are taken with unspecified integer codes. [int] on a string,
    [re.compile] on a pattern text and [set.pop] belong to the Python
    runtime. *)
Class PyEnv := {
  INFO : Z;
  NORMAL : Z;
  MAJOR : Z;
  int_of_str : string → option Z;
  re_compile_str : string → outcome Pattern;
  set_pop : gset string → string
}.

(** [set.pop] removes and returns some member of a set that is not
    empty. *)
Definition set_pop_sound `{PyEnv} : Prop :=
  ∀ s : gset string, s ≠ ∅ → set_pop s ∈ s.

(** [d[key]] *)
Definition getitem {V} (d : gmap string V) (key : string) : outcome V :=
  match d !! key with
  | Some v => Return v
  | None => Raise (KeyError key)
  end.

(** Truth value of an object. *)
Definition truthy_atom (a : atom) : bool :=
  match a with
  | ANone => false
  | ABool b => b
  | AInt z => negb (z =? 0)
  | AStr s => negb (String.eqb s "")
  end.

Definition truthy (v : value) : bool :=
  match v with
  | VAtom a => truthy_atom a
  | VDict d => negb (bool_decide (d = ∅))
  | VPattern _ => true
  end.

(** [str(x)] *)
Definition py_str (a : atom) : string :=
  match a with
  | ANone => "None"
  | ABool true => "True"
  | ABool false => "False"
  | AInt z => pretty z
  | AStr s => s
  end.

Section Runtime.
Context `{env : PyEnv}.

(** [int(x)] *)
Definition py_int (a : atom) : outcome Z :=
  match a with
  | ANone => Raise (TypeError IntOfNone)
  | ABool b => Return (Z.b2z b)
  | AInt z => Return z
  | AStr s =>
      match int_of_str s with
      | Some z => Return z
      | None => Raise (ValueError (InvalidLiteral s))
      end
  end.

(** [re.compile(x)]: a compiled pattern is returned as it is. *)
Definition re_compile (v : value) : outcome Pattern :=
  match v with
  | VStr s => re_compile_str s
  | VPattern p => Return p
  | _ => Raise (TypeError (NotAPattern v))
  end.

(** [x in RESULT_SEVERITY.reverse], the dictionary from the three codes
    to their names; [True] and [False] hash and compare as 1 and 0. *)
Definition is_severity_code (z : Z) : bool :=
  bool_decide (z = INFO ∨ z = NORMAL ∨ z = MAJOR).

Definition in_RESULT_SEVERITY_reverse (v : value) : outcome bool :=
  match v with
  | VAtom (AInt z) => Return (is_severity_code z)
  | VAtom (ABool b) => Return (is_severity_code (Z.b2z b))
  | VAtom _ => Return false
  | VDict _ => Raise (TypeError Unhashable)
  | VPattern _ => Return false
  end.

(** [assert_right_type(value, (str,), name)] and
    [assert_right_type(value, (dict,), name)] *)
Definition assert_str (v : value) (name : string) : outcome unit :=
  match v with
  | VStr _ => Return ()
  | _ => Raise (TypeError (WrongType name))
  end.

Definition assert_dict (v : value) (name : string) : outcome unit :=
  match v with
  | VDict _ => Return ()
  | _ => Raise (TypeError (WrongType name))
  end.

(** ** The decorator: validation of the options *)

Definition default_severity_map : gmap atom atom :=
  <[AStr "error" := AInt MAJOR]>
    (<[AStr "warning" := AInt NORMAL]>
       (<[AStr "info" := AInt INFO]> ∅)).

Definition base_options : gset string :=
  {["executable"; "provides_correction"; "use_stdin"; "use_stderr";
    "config_suffix"]}.

(** The branch taken when [provides_correction] is set. *)
Definition check_diff_options (options : gmap string value)
  : outcome (gmap string value) :=
  options ←
    match options !! "diff_severity" with
    | None => Return (<["diff_severity" := VInt NORMAL]> options)
    | Some v =>
        known ← in_RESULT_SEVERITY_reverse v;
        if negb known then Raise (TypeError (InvalidDiffSeverity v))
        else Return options
    end;
  match options !! "diff_message" with
  | None => Return (<["diff_message" := VStr "Inconsistency found."]> options)
  | Some v => _ ← assert_str v "diff_message"; Return options
  end.

(** The branch taken otherwise. *)
Definition check_regex_options (options : gmap string value)
  : outcome (gmap string value) :=
  match options !! "output_regex" with
  | None => Raise (ValueError NoOutputRegex)
  | Some source =>
      regex ← re_compile source;
      let options := <["output_regex" := VPattern regex]> options in
      match options !! "severity_map" with
      | Some m =>
          if bool_decide ("severity" ∉ groupindex regex)
          then Raise (ValueError SeverityMapUnused)
          else _ ← assert_dict m "severity_map"; Return options
      | None =>
          if bool_decide ("severity" ∈ groupindex regex)
          then Return (<["severity_map" := VDict default_severity_map]> options)
          else Return options
      end
  end.

(** [Linter(executable, provides_correction, use_stdin, use_stderr,
    config_suffix, **options)] up to the point where [create_linter] is
    returned: the checked options, or the exception raised. The typed
    parameters are what [enforce_signature] lets through. *)
Definition Linter (executable : string)
    (provides_correction use_stdin use_stderr : bool)
    (config_suffix : string) (options : gmap string value)
  : outcome (gmap string value) :=
  let options := <["executable" := VStr executable]> options in
  let options := <["provides_correction" := VBool provides_correction]> options in
  let options := <["use_stdin" := VBool use_stdin]> options in
  let options := <["use_stderr" := VBool use_stderr]> options in
  let options := <["config_suffix" := VBool use_stderr]> options in
  let allowed_options := base_options in
  '(options, allowed_options) ←
    (if provides_correction
     then options ← check_diff_options options;
          Return (options, allowed_options ∪ {["diff_severity"; "diff_message"]})
     else options ← check_regex_options options;
          Return (options, allowed_options ∪ {["output_regex"; "severity_map"]}));
  let superfluous_options := dom options ∖ allowed_options in
  if bool_decide (superfluous_options ≠ ∅)
  then Raise (ValueError (InvalidKeyword (set_pop superfluous_options)))
  else Return options.

(** ** Results *)

(** Modelled from the spec: [coalib.results.Diff] is not among the
    sources. What one piece of [split_diff()] carries is a Patch: a span
    of lines of the original file (the [h_len] lines that follow its
    first [h_start] lines) and the lines that replace it. *)
Record Hunk := {
  h_start : nat;
  h_len : nat;
  h_added : list string
}.

(** Modelled from the spec: [coalib.results.SourceRange] is not among
    the sources. A range is either built from the four positions of a
    match, or is the line span of a hunk. *)
Inductive SourceRange :=
| FromValues (file : string) (line column end_line end_column : atom)
| LineSpan (file : string) (first count : nat).

(** Who a result comes from: the bear itself, or a text. *)
Inductive origin_of :=
| OriginBear
| OriginValue (a : atom).

(** Modelled from the spec: [coalib.results.Result] is not among the
    sources. A Diagnostic has a string for its message, one of the three
    severities, and positions that are positive integers when present.
    The fields hold the Python values the constructors are given:
    [Result(...)] is given the [diff_message] and [diff_severity] that
    the decorator has checked, [Result.from_values(...)] does its own
    checking. *)
Record Result := {
  origin : origin_of;
  message : value;
  affected_code : list SourceRange;
  severity : value;
  diffs : gmap string Hunk
}.

(** A position of a Diagnostic: unset, or a positive integer. *)
Definition is_position (a : atom) : bool :=
  match a with
  | ANone => true
  | AInt z => bool_decide (0 < z)
  | _ => false
  end.

Definition is_text (a : atom) : bool :=
  match a with
  | AStr _ => true
  | _ => false
  end.

(** Modelled from the spec: [Result.from_values(origin=, message=, file=,
    severity=, line=, column=, end_line=, end_column=)] is not among the
    sources. It builds a Diagnostic from values of the data model: a
    string for the message, one of the three severities, positions that
    are unset or positive integers. For anything else it raises; which
    Python exception that is cannot be told from the sources, it is
    [DiagnosticError] here. *)
Definition Result_from_values (origin : origin_of) (message : atom)
    (file : string) (severity : Z) (line column end_line end_column : atom)
  : outcome Result :=
  if is_text message && is_severity_code severity
     && forallb is_position [line; column; end_line; end_column]
  then Return {| origin := origin;
                 message := VAtom message;
                 affected_code :=
                   [FromValues file line column end_line end_column];
                 severity := VInt severity;
                 diffs := ∅ |}
  else Raise DiagnosticError.

(** ** Pattern mode *)

Definition capture (c : option string) : atom :=
  match c with
  | Some s => AStr s
  | None => ANone
  end.

Definition numeric_groups : list string :=
  ["line"; "column"; "end_line"; "end_column"].

(** The body of the loop over the numeric groups. *)
Definition convert_numeric (groups : gmap string atom) (variable : string)
  : outcome (gmap string atom) :=
  match groups !! variable with
  | Some a =>
      if truthy_atom a
      then z ← py_int a; Return (<[variable := AInt z]> groups)
      else Return groups
  | None => Return groups
  end.

(** [for x in xs: s = body(s, x)] *)
Fixpoint for_each {S A} (body : S → A → outcome S) (s : S) (xs : list A)
  : outcome S :=
  match xs with
  | [] => Return s
  | x :: xs' => s' ← body s x; for_each body s' xs'
  end.

(** The replacement of a severity label that is a key of the map. *)
Definition map_severity (severity_map : value) (groups : gmap string atom)
  : gmap string atom :=
  match severity_map with
  | VDict d =>
      match groups !! "severity" with
      | Some label =>
          match d !! label with
          | Some sev => <["severity" := sev]> groups
          | None => groups
          end
      | None => groups
      end
  | _ => groups
  end.

Definition format_origin (klass_name : string) (groups : gmap string atom)
  : gmap string atom :=
  match groups !! "origin" with
  | Some o =>
      <["origin" := AStr (klass_name +:+ " (" +:+ py_str o +:+ ")")]> groups
  | None => groups
  end.

Definition _convert_output_regex_match_to_result
    (options : gmap string value) (klass_name : string)
    (match_ : Match) (filename : string) : outcome Result :=
  let groups : gmap string atom := capture <$> match_ in
  severity_map ← getitem options "severity_map";
  let groups := map_severity severity_map groups in
  groups ← for_each convert_numeric groups numeric_groups;
  let groups := format_origin klass_name groups in
  severity ← py_int (default (AInt NORMAL) (groups !! "severity"));
  Result_from_values
    (from_option OriginValue OriginBear (groups !! "origin"))
    (default (AStr "") (groups !! "message"))
    filename
    severity
    (default ANone (groups !! "line"))
    (default ANone (groups !! "column"))
    (default ANone (groups !! "end_line"))
    (default ANone (groups !! "end_column")).

(** [_process_output] when [provides_correction] is not set. *)
Definition _process_output_regex (options : gmap string value)
    (klass_name : string) (output filename : string) (file : list string)
  : generator Result :=
  match getitem options "output_regex" with
  | Return (VPattern regex) =>
      yield_each
        (λ m, _convert_output_regex_match_to_result options klass_name m filename)
        (finditer regex output)
  | Return _ => ([], Some (AttributeError "finditer"))
  | Raise e => ([], Some e)
  end.

(** ** Diff mode *)

(** [str.splitlines(keepends=True)]: a line ends after a line feed, a
    carriage return (with the line feed that follows it, if any), a
    vertical tab, a form feed, a file, group or record separator, or a
    next-line character; the line boundary stays in the line. *)
Definition is_cr (c : ascii) : bool := bool_decide (c = "013"%char).
Definition is_lf (c : ascii) : bool := bool_decide (c = "010"%char).

Definition is_linebreak (c : ascii) : bool :=
  bool_decide (c ∈ ["010"; "011"; "012"; "028"; "029"; "030"; "133"]%char).

Fixpoint splitlines (s : string) : list string :=
  match s with
  | EmptyString => []
  | String c rest =>
      if is_cr c then
        match rest with
        | String c' rest' =>
            if is_lf c'
            then String c (String c' EmptyString) :: splitlines rest'
            else String c EmptyString :: splitlines rest
        | EmptyString => [String c EmptyString]
        end
      else if is_linebreak c then String c EmptyString :: splitlines rest
      else
        match splitlines rest with
        | [] => [String c EmptyString]
        | l :: ls => String c l :: ls
        end
  end.

(** The text that a sequence of lines spells. *)
Definition join_lines (ls : list string) : string :=
  foldr String.append EmptyString ls.

(** Modelled from the spec: [coalib.results.Diff] is not among the
    sources. The line-level structural diff of two line sequences is an
    edit script: every line of the original is kept or deleted, every
    line of the corrected text is kept or inserted. *)
Inductive edit :=
| Keep (l : string)
| Delete (l : string)
| Insert (l : string).

(** How many lines a script keeps. *)
Fixpoint kept (es : list edit) : nat :=
  match es with
  | [] => 0
  | Keep _ :: es' => S (kept es')
  | _ :: es' => kept es'
  end.

(** Modelled from the spec: [Diff.from_string_arrays] computes the diff;
    here the script that keeps a longest common subsequence. *)
Fixpoint from_string_arrays (file_array_1 file_array_2 : list string)
  : list edit :=
  match file_array_1 with
  | [] => Insert <$> file_array_2
  | x :: rest_1 =>
      (fix against (file_array_2 : list string) : list edit :=
         match file_array_2 with
         | [] => Delete <$> file_array_1
         | y :: rest_2 =>
             if decide (x = y) then Keep x :: from_string_arrays rest_1 rest_2
             else
               let deleting := Delete x :: from_string_arrays rest_1 file_array_2 in
               let inserting := Insert y :: against rest_2 in
               if decide (kept inserting ≤ kept deleting)%nat
               then deleting else inserting
         end) file_array_2
  end.

(** The hunk that is open while the script is read, if it changes
    anything. *)
Definition flush (start len : nat) (added : list string) : list Hunk :=
  match len, added with
  | O, [] => []
  | _, _ => [{| h_start := start; h_len := len; h_added := added |}]
  end.

(** Modelled from the spec: the partition of the diff into maximal runs
    of changed lines. Reading the script, [start] lines of the original
    precede the open hunk, which covers [len] lines so far and replaces
    them by [added]; an unchanged line closes it. *)
Fixpoint split_from (start len : nat) (added : list string)
    (es : list edit) : list Hunk :=
  match es with
  | [] => flush start len added
  | Keep _ :: es' =>
      flush start len added ++ split_from (start + len + 1) 0 [] es'
  | Delete _ :: es' => split_from start (len + 1) added es'
  | Insert l :: es' => split_from start len (added ++ [l]) es'
  end.

Definition split_diff (es : list edit) : list Hunk := split_from 0 0 [] es.

(** Modelled from the spec: [diff.range(filename)], the span of original
    lines that the hunk covers. *)
Definition range (filename : string) (diff : Hunk) : SourceRange :=
  LineSpan filename (h_start diff) (h_len diff).

(** Modelled from the spec: applying a patch replaces its span by its
    replacement lines. When patches are applied one after the other, in
    range order, [shift] is how far the earlier ones have moved the
    lines behind them. *)
Definition apply_patch (state : list string * Z) (h : Hunk)
  : list string * Z :=
  let '(content, shift) := state in
  let at_line := Z.to_nat (Z.of_nat (h_start h) + shift) in
  (take at_line content ++ h_added h ++ drop (at_line + h_len h) content,
   shift + Z.of_nat (length (h_added h)) - Z.of_nat (h_len h)).

Definition apply_patches (original : list string) (hs : list Hunk)
  : list string :=
  (foldl apply_patch (original, 0) hs).1.

(** The patches that a sequence of results carries, in order. *)
Definition patches (rs : list Result) : list Hunk :=
  rs ≫= λ r, (map_to_list (diffs r)).*2.

(** [_process_output] when [provides_correction] is set. *)
Definition _process_output_diff (options : gmap string value)
    (output filename : string) (file : list string) : generator Result :=
  yield_each
    (λ diff,
       diff_message ← getitem options "diff_message";
       diff_severity ← getitem options "diff_severity";
       Return {| origin := OriginBear;
                 message := diff_message;
                 affected_code := [range filename diff];
                 severity := diff_severity;
                 diffs := {[filename := diff]} |})
    (split_diff (from_string_arrays file (splitlines output))).

(** ** The generated class *)

(** The interface class: the methods of the decorated class, on top of
    those of [DefaultLinterInterface], and its name. *)
Record Interface := {
  klass_name : string;
  create_arguments :
    string → list string → option string → gmap string value → list string;
  generate_config :
    string → list string → gmap string value → option string
}.

(** The class [Linter] that [create_linter] defines: the [options] and
    the interface class that its methods close over, and the three
    methods whose definition is chosen when the class is created. *)
Record LinterClass := {
  closure_options : gmap string value;
  get_interface : Interface;
  _process_output : string → string → list string → generator Result;
  _grab_output : string → string → string;
  _pass_file_as_stdin_if_needed : list string → option (list string)
}.

Definition get_executable (cls : LinterClass) : outcome value :=
  getitem (closure_options cls) "executable".

Definition create_linter (options : gmap string value) (klass : Interface)
  : outcome LinterClass :=
  provides_correction ← getitem options "provides_correction";
  use_stderr ← getitem options "use_stderr";
  use_stdin ← getitem options "use_stdin";
  Return {|
    closure_options := options;
    get_interface := klass;
    _process_output :=
      if truthy provides_correction
      then _process_output_diff options
      else _process_output_regex options (klass_name klass);
    _grab_output :=
      if truthy use_stderr
      then λ stdout stderr, stderr
      else λ stdout stderr, stdout;
    _pass_file_as_stdin_if_needed :=
      if truthy use_stdin then λ file, Some file else λ file, None
  |}.

(** ** Running the tool *)

(** A finished process. *)
Record Completed := {
  stdout : string;
  stderr : string;
  returncode : Z
}.

(** The machine the bear runs on: starting a process, given the
    temporary files that exist, its arguments and its input; and
    creating a temporary file with a suffix ([make_temp], of
    [coalib.misc.ContextManagers]), which gives its path. *)
Record Machine := {
  spawn : gmap string string → list value → option (list string)
          → outcome Completed;
  make_temp : value → outcome string
}.

(** Modelled from the spec: [coalib.misc.Shell.run_shell_command] is not
    among the sources. It gives the two captured streams of the process,
    whatever its exit status, and fails only when the process cannot be
    started. *)
Definition run_shell_command (machine : Machine)
    (files : gmap string string) (command : list value)
    (stdin : option (list string)) : outcome (string * string) :=
  done ← spawn machine files command stdin;
  Return (stdout done, stderr done).

Definition _execute_command (cls : LinterClass) (machine : Machine)
    (files : gmap string string) (args : list string)
    (stdin : option (list string)) : outcome (string * string) :=
  executable ← get_executable cls;
  run_shell_command machine files (executable :: (VAtom ∘ AStr <$> args)) stdin.

(** [_create_config]: the configuration file handed to the body of the
    [with] statement, and the temporary files that exist meanwhile. *)
Definition _create_config (cls : LinterClass) (machine : Machine)
    (filename : string) (file : list string) (kwargs : gmap string value)
  : outcome (option string * gmap string string) :=
  match generate_config (get_interface cls) filename file kwargs with
  | None => Return (None, ∅)
  | Some content =>
      tmp_suffix ← getitem (closure_options cls) "config_suffix";
      config_file ← make_temp machine tmp_suffix;
      Return (Some config_file, {[config_file := content]})
  end.

Definition run (cls : LinterClass) (machine : Machine)
    (filename : string) (file : list string) (kwargs : gmap string value)
  : outcome (generator Result) :=
  '(config_file, files) ← _create_config cls machine filename file kwargs;
  '(stdout, stderr) ←
    _execute_command cls machine files
      (create_arguments (get_interface cls) filename file config_file kwargs)
      (_pass_file_as_stdin_if_needed cls file);
  let output := _grab_output cls stdout stderr in
  Return (_process_output cls output filename file).

End Runtime.

(** ** Notions used in the statements *)

(** The options as they stand after the five assignments that open
    [Linter]. *)
Definition initial_options (executable : string)
    (provides_correction use_stdin use_stderr : bool)
    (options : gmap string value) : gmap string value :=
  <["config_suffix" := VBool use_stderr]>
    (<["use_stderr" := VBool use_stderr]>
       (<["use_stdin" := VBool use_stdin]>
          (<["provides_correction" := VBool provides_correction]>
             (<["executable" := VStr executable]> options)))).

(** The options allowed when [provides_correction] is set. *)
Definition diff_allowed_options : gset string :=
  base_options ∪ {["diff_severity"; "diff_message"]}.

(** The two line sequences that a script relates. *)
Fixpoint original_of (es : list edit) : list string :=
  match es with
  | [] => []
  | Keep l :: es' | Delete l :: es' => l :: original_of es'
  | Insert _ :: es' => original_of es'
  end.

Fixpoint corrected_of (es : list edit) : list string :=
  match es with
  | [] => []
  | Keep l :: es' | Insert l :: es' => l :: corrected_of es'
  | Delete _ :: es' => corrected_of es'
  end.

(** Every hunk starts at [lo] or later, and at least one line lies
    between a hunk and the next. *)
Fixpoint apart_from (lo : nat) (hs : list Hunk) : Prop :=
  match hs with
  | [] => True
  | h :: hs' =>
      (lo ≤ h_start h)%nat ∧ apart_from (h_start h + h_len h + 1) hs'
  end.

(** The result built for one hunk. *)
Definition diff_result (diff_message diff_severity : value)
    (filename : string) (diff : Hunk) : Result :=
  {| origin := OriginBear;
     message := diff_message;
     affected_code := [range filename diff];
     severity := diff_severity;
     diffs := {[filename := diff]} |}.

(** The stream of a finished process that the adapter reads. *)
Definition selected (use_stderr : bool) (c : Completed) : string :=
  if use_stderr then stderr c else stdout c.

Definition outcome_map {A B} (f : A → B) (m : outcome A) : outcome B :=
  match m with
  | Return a => Return (f a)
  | Raise e => Raise e
  end.

(** The options allowed when [provides_correction] is not set. *)
Definition pattern_allowed_options : gset string :=
  base_options ∪ {["output_regex"; "severity_map"]}.

Definition allowed_options_of (provides_correction : bool) : gset string :=
  if provides_correction then diff_allowed_options
  else pattern_allowed_options.

(** What a diagnostic holds for a numeric group: nothing for a group
    that is absent or took no part in the match, and for a group that
    captured text the integer that the text spells. *)
Definition converted `{PyEnv} (c : option (option string)) (field : atom)
  : Prop :=
  match c with
  | None | Some None => field = ANone
  | Some (Some s) => ∃ z, int_of_str s = Some z ∧ field = AInt z
  end.

(** Every numeric group that captured text captured an integer. *)
Definition numeric_groups_fine `{PyEnv} (m : Match) : bool :=
  forallb
    (λ variable,
       match m !! variable with
       | Some (Some s) =>
           String.eqb s "" || bool_decide (is_Some (int_of_str s))
       | _ => true
       end)
    numeric_groups.

(** ** A concrete runtime, for the examples *)

(** Decimal integer literals: an optional sign and one digit or more. *)
Definition digit_of (c : ascii) : option Z :=
  let n := Z.of_N (N_of_ascii c) in
  if bool_decide (48 ≤ n ≤ 57) then Some (n - 48) else None.

Fixpoint digits_from (acc : Z) (s : string) : option Z :=
  match s with
  | EmptyString => Some acc
  | String c rest => d ← digit_of c; digits_from (10 * acc + d) rest
  end.

Definition decimal_int (s : string) : option Z :=
  match s with
  | EmptyString => None
  | String "-" (String c rest) => Z.opp <$> digits_from 0 (String c rest)
  | String "+" (String c rest) => digits_from 0 (String c rest)
  | _ => digits_from 0 s
  end.

(** A pattern object whose matches are written down for the texts of
    the examples; it finds nothing in any other text. *)
Fixpoint matches_in (table : list (string * list Match)) (text : string)
  : list Match :=
  match table with
  | [] => []
  | (known, ms) :: table' =>
      if String.eqb text known then ms else matches_in table' text
  end.

Definition tabulated (groups : list string)
    (table : list (string * list Match)) : Pattern :=
  {| groupindex := list_to_set groups;
     finditer := matches_in table |}.

(** [(?P<line>\d+):(?P<column>\d+): (?P<severity>\w+): (?P<message>.+)] *)
Definition located_pattern : Pattern :=
  tabulated ["line"; "column"; "severity"; "message"]
    [("3:5: warning: unused variable",
      [{["line" := Some "3"; "column" := Some "5";
         "severity" := Some "warning"; "message" := Some "unused variable"]}]);
     ("3:5: fatal: no such file",
      [{["line" := Some "3"; "column" := Some "5";
         "severity" := Some "fatal"; "message" := Some "no such file"]}])].

(** [(?P<line>\w+): (?P<message>.+)] *)
Definition plain_pattern : Pattern :=
  tabulated ["line"; "message"]
    [("12: trailing whitespace",
      [{["line" := Some "12"; "message" := Some "trailing whitespace"]}]);
     ("EOF: missing newline",
      [{["line" := Some "EOF"; "message" := Some "missing newline"]}])].

(** [(?P<severity>\w+): (?P<message>\w+)( \[(?P<origin>\w+)\])?] *)
Definition tagged_pattern : Pattern :=
  tabulated ["severity"; "message"; "origin"]
    [("warning: unused",
      [{["severity" := Some "warning"; "message" := Some "unused";
         "origin" := None]}])].

Definition known_patterns : list (string * Pattern) :=
  [("(?P<line>\d+):(?P<column>\d+): (?P<severity>\w+): (?P<message>.+)",
    located_pattern);
   ("(?P<line>\w+): (?P<message>.+)", plain_pattern);
   ("(?P<severity>\w+): (?P<message>\w+)( \[(?P<origin>\w+)\])?",
    tagged_pattern)].

Fixpoint compile_known (known : list (string * Pattern)) (source : string)
  : outcome Pattern :=
  match known with
  | [] => Raise (ReError source)
  | (text, p) :: known' =>
      if String.eqb source text then Return p else compile_known known' source
  end.

Definition first_element (s : gset string) : string :=
  default "" (head (elements s)).

#[global] Instance python : PyEnv := {|
  INFO := 0;
  NORMAL := 1;
  MAJOR := 2;
  int_of_str := decimal_int;
  re_compile_str := compile_known known_patterns;
  set_pop := first_element
|}.

(** ** Example adapters *)

Definition XLintBear : Interface :=
  {| klass_name := "XLintBear";
     create_arguments := λ filename file config_file settings,
       ["--lint"; filename];
     generate_config := λ filename file settings, None |}.

Definition XConfigBear : Interface :=
  {| klass_name := "XConfigBear";
     create_arguments := λ filename file config_file settings,
       ["--lint"; filename; "--config"; default "" config_file];
     generate_config := λ filename file settings, Some "<xlint></xlint>" |}.

(** [@Linter("xlint", config_suffix=".xml",
             output_regex=r"(?P<line>\w+): (?P<message>.+)")] *)
Definition plain_kwargs : gmap string value :=
  {["output_regex" := VStr "(?P<line>\w+): (?P<message>.+)"]}.

Definition plain_options : gmap string value :=
  <["output_regex" := VPattern plain_pattern]>
    (initial_options "xlint" false false false plain_kwargs).

(** [@Linter("xlint", output_regex=
      r"(?P<line>\d+):(?P<column>\d+): (?P<severity>\w+): (?P<message>.+)")] *)
Definition located_kwargs : gmap string value :=
  {["output_regex" :=
      VStr "(?P<line>\d+):(?P<column>\d+): (?P<severity>\w+): (?P<message>.+)"]}.

Definition located_options : gmap string value :=
  <["severity_map" := VDict default_severity_map]>
    (<["output_regex" := VPattern located_pattern]>
       (initial_options "xlint" false false false located_kwargs)).

(** [@Linter("xlint", output_regex=
      r"(?P<severity>\w+): (?P<message>\w+)( \[(?P<origin>\w+)\])?")] *)
Definition tagged_kwargs : gmap string value :=
  {["output_regex" :=
      VStr "(?P<severity>\w+): (?P<message>\w+)( \[(?P<origin>\w+)\])?"]}.

Definition tagged_options : gmap string value :=
  <["severity_map" := VDict default_severity_map]>
    (<["output_regex" := VPattern tagged_pattern]>
       (initial_options "xlint" false false false tagged_kwargs)).

(** [@Linter("xfix", provides_correction=True)] *)
Definition xfix_options : gmap string value :=
  <["diff_message" := VStr "Inconsistency found."]>
    (<["diff_severity" := VInt NORMAL]>
       (initial_options "xfix" true false false ∅)).

(** A text line, with the line feed that ends it. *)
Definition ln (s : string) : string := s +:+ String "010" EmptyString.

(** A machine on which every process prints one warning and exits
    with status 1. *)
Definition complaining : Machine :=
  {| spawn := λ files command stdin,
       Return {| stdout := "3:5: warning: unused variable";
                 stderr := "";
                 returncode := 1 |};
     make_temp := λ suffix, Return "/tmp/config" |}.

(** [@Linter("xlint",
             output_regex=re.compile(r"((?P<severity>\w+): )?(?P<message>\w+)"))],
    with the pattern compiled beforehand. *)
Definition optional_pattern : Pattern :=
  tabulated ["severity"; "message"]
    [("unused", [{["severity" := None; "message" := Some "unused"]}])].

Definition optional_kwargs : gmap string value :=
  {["output_regex" := VPattern optional_pattern]}.

Definition optional_options : gmap string value :=
  <["severity_map" := VDict default_severity_map]>
    (<["output_regex" := VPattern optional_pattern]>
       (initial_options "xlint" false false false optional_kwargs)).

(** * Properties *)

(** ** The error monad *)

Lemma bind_Return {A B} (m : outcome A) (f : A → outcome B) (b : B) :
  m ≫= f = Return b → ∃ a, m = Return a ∧ f a = Return b.
Proof. destruct m as [a|e]; [eauto | discriminate]. Qed.

Lemma Return_bind {A B} (a : A) (f : A → outcome B) : Return a ≫= f = f a.
Proof. reflexivity. Qed.

Lemma getitem_Return {V} (d : gmap string V) key v :
  getitem d key = Return v ↔ d !! key = Some v.
Proof. unfold getitem. destruct (d !! key); split; congruence. Qed.

Lemma getitem_Raise {V} (d : gmap string V) key :
  d !! key = None → getitem d key = Raise (KeyError key).
Proof. unfold getitem. by intros ->. Qed.

Ltac inv_bind H :=
  let a := fresh "a" in
  let Ha := fresh "Ha" in
  apply bind_Return in H as (a & Ha & H).

(** ** The concrete runtime *)

Lemma python_set_pop_sound : set_pop_sound.
Proof.
  intros s Hs. simpl. unfold first_element.
  destruct (elements s) as [|k ks] eqn:E.
  - apply elements_empty_inv in E. by apply leibniz_equiv in E.
  - simpl. apply elem_of_elements. rewrite E. left.
Qed.

(** ** What the decorator lets through *)

Section Validation.
Context `{env : PyEnv}.

Lemma check_regex_options_Return options options' :
  check_regex_options options = Return options' →
  ∃ regex,
    options' !! "output_regex" = Some (VPattern regex) ∧
    (if bool_decide ("severity" ∈ groupindex regex)
     then ∃ d, options' !! "severity_map" = Some (VDict d)
     else options' !! "severity_map" = None) ∧
    ∀ key, key ≠ "output_regex" → key ≠ "severity_map" →
           options' !! key = options !! key.
Proof.
  unfold check_regex_options. intros Hc.
  destruct (options !! "output_regex") as [source|]; [|discriminate].
  inv_bind Hc. rename a into regex. exists regex.
  rewrite lookup_insert_ne in Hc by done.
  destruct (options !! "severity_map") as [m|] eqn:Hm.
  - case_bool_decide as Hin; [discriminate|].
    inv_bind Hc. injection Hc as <-.
    destruct m as [?|d|?]; try discriminate.
    rewrite bool_decide_eq_true_2 by done.
    split; [by rewrite lookup_insert_eq|].
    split; [exists d; by rewrite lookup_insert_ne|].
    intros key ? ?. by rewrite lookup_insert_ne.
  - case_bool_decide as Hin; injection Hc as <-.
    + split; [by rewrite lookup_insert_ne, lookup_insert_eq|].
      split; [eexists; by rewrite lookup_insert_eq|].
      intros key ? ?. by rewrite !lookup_insert_ne.
    + split; [by rewrite lookup_insert_eq|].
      split; [by rewrite lookup_insert_ne|].
      intros key ? ?. by rewrite lookup_insert_ne.
Qed.

Lemma check_diff_options_Return options options' :
  check_diff_options options = Return options' →
  is_Some (options' !! "diff_message") ∧
  is_Some (options' !! "diff_severity") ∧
  dom options' = dom options ∪ {["diff_severity"; "diff_message"]} ∧
  ∀ key, key ≠ "diff_severity" → key ≠ "diff_message" →
         options' !! key = options !! key.
Proof.
  unfold check_diff_options. intros Hc.
  inv_bind Hc. rename a into o1.
  assert (is_Some (o1 !! "diff_severity") ∧
          dom o1 = dom options ∪ {["diff_severity"]} ∧
          ∀ key, key ≠ "diff_severity" → o1 !! key = options !! key)
    as (Hs & Hd & Hk).
  { destruct (options !! "diff_severity") as [v|] eqn:Hv.
    - inv_bind Ha. destruct (negb a); [discriminate|]. injection Ha as <-.
      split; [by rewrite Hv|]. split; [|done].
      apply elem_of_dom_2 in Hv. set_solver.
    - injection Ha as <-. split; [by rewrite lookup_insert_eq|].
      split; [rewrite dom_insert_L; set_solver|].
      intros key ?. by rewrite lookup_insert_ne. }
  destruct (o1 !! "diff_message") as [v|] eqn:Hv.
  - inv_bind Hc. injection Hc as <-.
    split; [by rewrite Hv|]. split; [done|].
    split; [apply elem_of_dom_2 in Hv; set_solver|].
    intros key ? ?. by apply Hk.
  - injection Hc as <-. split; [by rewrite lookup_insert_eq|].
    split; [by rewrite lookup_insert_ne|].
    split; [rewrite dom_insert_L; set_solver|].
    intros key ? ?. rewrite lookup_insert_ne by done. by apply Hk.
Qed.

(** The three ways in which the branch for [provides_correction]
    raises, and when it does not. *)
Lemma check_diff_options_unhashable options d :
  options !! "diff_severity" = Some (VDict d) →
  check_diff_options options = Raise (TypeError Unhashable).
Proof. unfold check_diff_options. by intros ->. Qed.

Lemma check_diff_options_invalid options v :
  options !! "diff_severity" = Some v →
  in_RESULT_SEVERITY_reverse v = Return false →
  check_diff_options options = Raise (TypeError (InvalidDiffSeverity v)).
Proof. unfold check_diff_options. by intros -> ->. Qed.

Lemma check_diff_options_message options w :
  (∀ v, options !! "diff_severity" = Some v →
        in_RESULT_SEVERITY_reverse v = Return true) →
  options !! "diff_message" = Some w → (∀ s, w ≠ VStr s) →
  check_diff_options options = Raise (TypeError (WrongType "diff_message")).
Proof.
  unfold check_diff_options. intros Hsev Hmsg Hw.
  destruct (options !! "diff_severity") as [v|] eqn:Hv.
  - rewrite (Hsev v eq_refl). simpl. rewrite Hmsg.
    destruct w as [[| | |s]| |]; try done. by destruct (Hw s).
  - simpl. rewrite lookup_insert_ne by done. rewrite Hmsg.
    destruct w as [[| | |s]| |]; try done. by destruct (Hw s).
Qed.

Lemma check_diff_options_total options :
  (∀ v, options !! "diff_severity" = Some v →
        in_RESULT_SEVERITY_reverse v = Return true) →
  (∀ w, options !! "diff_message" = Some w → ∃ s, w = VStr s) →
  ∃ options', check_diff_options options = Return options'.
Proof.
  unfold check_diff_options. intros Hsev Hmsg.
  destruct (options !! "diff_severity") as [v|] eqn:Hv.
  - rewrite (Hsev v eq_refl). simpl.
    destruct (options !! "diff_message") as [w|] eqn:Hw; [|by eauto].
    destruct (Hmsg w eq_refl) as [s ->]. simpl. eauto.
  - simpl. rewrite lookup_insert_ne by done.
    destruct (options !! "diff_message") as [w|] eqn:Hw; [|by eauto].
    destruct (Hmsg w eq_refl) as [s ->]. simpl. eauto.
Qed.

(** A successful [Linter] call went through one of the two branches and
    found nothing superfluous. *)
Lemma Linter_Return executable provides_correction use_stdin use_stderr
    config_suffix kwargs options :
  Linter executable provides_correction use_stdin use_stderr config_suffix
    kwargs = Return options →
  (if provides_correction then check_diff_options else check_regex_options)
    (initial_options executable provides_correction use_stdin use_stderr kwargs)
  = Return options.
Proof.
  unfold Linter. fold (initial_options executable provides_correction
                         use_stdin use_stderr kwargs).
  intros HL. inv_bind HL. destruct a as [o allowed].
  case_bool_decide; [discriminate|]. injection HL as <-.
  destruct provides_correction; inv_bind Ha; by injection Ha as <- _.
Qed.

Lemma initial_options_lookup executable provides_correction use_stdin
    use_stderr kwargs :
  let o := initial_options executable provides_correction use_stdin
             use_stderr kwargs in
  o !! "executable" = Some (VStr executable) ∧
  o !! "provides_correction" = Some (VBool provides_correction) ∧
  o !! "use_stdin" = Some (VBool use_stdin) ∧
  o !! "use_stderr" = Some (VBool use_stderr) ∧
  o !! "config_suffix" = Some (VBool use_stderr).
Proof. unfold initial_options. by simplify_map_eq. Qed.

(** The five base options of a checked adapter. *)
Lemma Linter_base_options executable provides_correction use_stdin
    use_stderr config_suffix kwargs options :
  Linter executable provides_correction use_stdin use_stderr config_suffix
    kwargs = Return options →
  options !! "executable" = Some (VStr executable) ∧
  options !! "provides_correction" = Some (VBool provides_correction) ∧
  options !! "use_stdin" = Some (VBool use_stdin) ∧
  options !! "use_stderr" = Some (VBool use_stderr) ∧
  options !! "config_suffix" = Some (VBool use_stderr).
Proof.
  intros HL. apply Linter_Return in HL.
  pose proof (initial_options_lookup executable provides_correction
                use_stdin use_stderr kwargs) as (E1 & E2 & E3 & E4 & E5).
  destruct provides_correction.
  - apply check_diff_options_Return in HL as (_ & _ & _ & Hk).
    by rewrite !Hk.
  - apply check_regex_options_Return in HL as (regex & _ & _ & Hk).
    by rewrite !Hk.
Qed.

End Validation.

(** ** The configuration file suffix *)

(** C3, as the code has it: whatever suffix string [Linter] is given,
    the checked options hold the [use_stderr] flag under
    ["config_suffix"], and when [generate_config] returns content the
    temporary configuration file is asked for with that flag as its
    suffix. The suffix string itself is never stored. *)
Theorem config_suffix_is_use_stderr `{PyEnv} executable provides_correction
    use_stdin use_stderr config_suffix kwargs options klass cls :
  Linter executable provides_correction use_stdin use_stderr config_suffix
    kwargs = Return options →
  create_linter options klass = Return cls →
  options !! "config_suffix" = Some (VBool use_stderr) ∧
  ∀ machine filename file settings content,
    generate_config klass filename file settings = Some content →
    _create_config cls machine filename file settings =
      (config_file ← make_temp machine (VBool use_stderr);
       Return (Some config_file, {[config_file := content]})).
Proof.
  intros HL Hc.
  apply Linter_base_options in HL as (_ & _ & _ & _ & Hs).
  split; [done|].
  intros machine filename file settings content Hg.
  unfold create_linter in Hc. do 3 inv_bind Hc. injection Hc as <-.
  unfold _create_config. simpl. rewrite Hg.
  apply getitem_Return in Hs. by rewrite Hs.
Qed.

(** ** Conversion of a match when no severity group is declared *)

(** C1, as the code has it: for a pattern-mode adapter whose pattern
    declares no [severity] group, no severity map is installed, and the
    conversion of every match stops at the lookup
    [options["severity_map"]] with a [KeyError]; no diagnostic is
    built. *)
Theorem convert_without_severity_group `{PyEnv} executable use_stdin
    use_stderr config_suffix kwargs options regex klass_name
    (m : Match) filename :
  Linter executable false use_stdin use_stderr config_suffix kwargs
    = Return options →
  options !! "output_regex" = Some (VPattern regex) →
  "severity" ∉ groupindex regex →
  _convert_output_regex_match_to_result options klass_name m filename
    = Raise (KeyError "severity_map").
Proof.
  intros HL Hr Hs. apply Linter_Return in HL.
  apply check_regex_options_Return in HL as (regex' & Hr' & Hm & _).
  rewrite Hr in Hr'. injection Hr' as <-.
  rewrite bool_decide_eq_false_2 in Hm by done.
  unfold _convert_output_regex_match_to_result.
  by rewrite (getitem_Raise _ _ Hm).
Qed.

(** ** Options outside the allowed set *)

(** C8, amended: with [provides_correction] set and an [output_regex]
    option supplied, [Linter] always raises. When the [diff_severity]
    and the [diff_message] that are supplied pass their own checks, the
    exception is the [ValueError] for a superfluous option, which names
    a supplied key outside the allowed set of the mode, and names
    [output_regex] when that is the only such key. Otherwise the check
    that fails comes first: a [diff_severity] that is a dict raises the
    [TypeError] of the membership test, which names no option, any
    other [diff_severity] that is no severity raises the [TypeError]
    about [diff_severity], and a [diff_message] that is no string the
    [TypeError] about [diff_message]. *)
Theorem output_regex_rejected_with_correction `{PyEnv} executable use_stdin
    use_stderr config_suffix (kwargs : gmap string value) :
  set_pop_sound →
  is_Some (kwargs !! "output_regex") →
  (∃ e,
     Linter executable true use_stdin use_stderr config_suffix kwargs
       = Raise e) ∧
  ((∀ v, kwargs !! "diff_severity" = Some v →
         in_RESULT_SEVERITY_reverse v = Return true) →
   (∀ w, kwargs !! "diff_message" = Some w → ∃ s, w = VStr s) →
   ∃ key,
     Linter executable true use_stdin use_stderr config_suffix kwargs
       = Raise (ValueError (InvalidKeyword key)) ∧
     is_Some (kwargs !! key) ∧ (key ∉ diff_allowed_options) ∧
     (dom kwargs ⊆ diff_allowed_options ∪ {["output_regex"]} →
      key = "output_regex")) ∧
  (∀ d, kwargs !! "diff_severity" = Some (VDict d) →
     Linter executable true use_stdin use_stderr config_suffix kwargs
       = Raise (TypeError Unhashable)) ∧
  (∀ v, kwargs !! "diff_severity" = Some v →
     in_RESULT_SEVERITY_reverse v = Return false →
     Linter executable true use_stdin use_stderr config_suffix kwargs
       = Raise (TypeError (InvalidDiffSeverity v))) ∧
  (∀ w,
     (∀ v, kwargs !! "diff_severity" = Some v →
           in_RESULT_SEVERITY_reverse v = Return true) →
     kwargs !! "diff_message" = Some w → (∀ s, w ≠ VStr s) →
     Linter executable true use_stdin use_stderr config_suffix kwargs
       = Raise (TypeError (WrongType "diff_message"))).
Proof.
  intros Hpop Hre. unfold Linter.
  fold (initial_options executable true use_stdin use_stderr kwargs).
  set (o := initial_options executable true use_stdin use_stderr kwargs).
  assert (∀ key, key ∉ base_options → o !! key = kwargs !! key) as Hother.
  { intros key Hk. unfold o, initial_options, base_options in *.
    rewrite !lookup_insert_ne by set_solver. done. }
  assert (o !! "diff_severity" = kwargs !! "diff_severity") as Hsev
    by (apply Hother; unfold base_options; set_solver).
  assert (o !! "diff_message" = kwargs !! "diff_message") as Hmsg
    by (apply Hother; unfold base_options; set_solver).
  destruct (check_diff_options o) as [o'|e] eqn:Hc.
  - pose proof Hc as Hc'.
    apply check_diff_options_Return in Hc' as (_ & _ & Hdom & Hk).
    simpl. fold diff_allowed_options.
    assert (∀ key, key ∈ dom o' ∖ diff_allowed_options →
                   is_Some (kwargs !! key) ∧ key ∉ diff_allowed_options)
      as Hsup.
    { intros key [Hk1 Hk2]%elem_of_difference. split; [|done].
      assert (key ∉ base_options) as Hnb
        by (unfold diff_allowed_options in Hk2; set_solver).
      rewrite <- Hother by done. apply elem_of_dom.
      rewrite Hdom in Hk1. apply elem_of_union in Hk1 as [Hk1|Hk1]; [done|].
      unfold diff_allowed_options in Hk2. set_solver. }
    assert ("output_regex" ∈ dom o' ∖ diff_allowed_options) as Hin.
    { apply elem_of_difference. split.
      - rewrite Hdom. apply elem_of_union_l, elem_of_dom.
        rewrite Hother by (unfold base_options; set_solver). done.
      - unfold diff_allowed_options, base_options. set_solver. }
    assert (dom o' ∖ diff_allowed_options ≠ ∅) as Hne by set_solver.
    rewrite bool_decide_eq_true_2 by done.
    split; [by eexists|]. split; [|split; [|split]].
    + intros _ _. eexists. split; [done|].
      pose proof (Hpop _ Hne) as Hp.
      destruct (Hsup _ Hp) as [Hs1 Hs2].
      split; [done|]. split; [done|].
      intros Hsub. apply elem_of_dom in Hs1. apply Hsub in Hs1. set_solver.
    + intros d Hd. rewrite <- Hsev in Hd.
      rewrite (check_diff_options_unhashable _ _ Hd) in Hc. discriminate.
    + intros v Hv Hin'. rewrite <- Hsev in Hv.
      rewrite (check_diff_options_invalid _ _ Hv Hin') in Hc. discriminate.
    + intros w Hv Hw Hns. rewrite <- Hsev in Hv. rewrite <- Hmsg in Hw.
      rewrite (check_diff_options_message _ _ Hv Hw Hns) in Hc. discriminate.
  - simpl. split; [by eexists|]. split; [|split; [|split]].
    + intros Hv Hw. rewrite <- Hsev in Hv. rewrite <- Hmsg in Hw.
      destruct (check_diff_options_total _ Hv Hw) as [o' Ho'].
      rewrite Ho' in Hc. discriminate.
    + intros d Hd. rewrite <- Hsev in Hd.
      rewrite (check_diff_options_unhashable _ _ Hd) in Hc. by injection Hc as <-.
    + intros v Hv Hin'. rewrite <- Hsev in Hv.
      rewrite (check_diff_options_invalid _ _ Hv Hin') in Hc.
      by injection Hc as <-.
    + intros w Hv Hw Hns. rewrite <- Hsev in Hv. rewrite <- Hmsg in Hw.
      rewrite (check_diff_options_message _ _ Hv Hw Hns) in Hc.
      by injection Hc as <-.
Qed.

(** ** Conversion of one match *)

Section Conversion.
Context `{env : PyEnv}.

Lemma convert_numeric_other groups variable groups' key :
  convert_numeric groups variable = Return groups' →
  key ≠ variable → groups' !! key = groups !! key.
Proof.
  unfold convert_numeric. intros Hc Hne.
  destruct (groups !! variable) as [a|]; [|by injection Hc as <-].
  destruct (truthy_atom a); [|by injection Hc as <-].
  inv_bind Hc. injection Hc as <-. by rewrite lookup_insert_ne.
Qed.

(** The loop leaves every group it does not name as it was. *)
Lemma for_each_numeric_other variables groups groups' key :
  for_each convert_numeric groups variables = Return groups' →
  key ∉ variables → groups' !! key = groups !! key.
Proof.
  revert groups. induction variables as [|v vs IH]; intros groups Hf Hk.
  - by injection Hf as <-.
  - simpl in Hf. inv_bind Hf. apply not_elem_of_cons in Hk as [Hne Hk].
    rewrite (IH _ Hf Hk). eauto using convert_numeric_other.
Qed.

(** A numeric group holding text that is not empty and that [int]
    rejects stops the loop, at that group or at an earlier one of the
    same kind. *)
Lemma for_each_numeric_Raise variables groups variable s :
  NoDup variables →
  variable ∈ variables →
  groups !! variable = Some (AStr s) → s ≠ "" → int_of_str s = None →
  ∃ variable' s',
    for_each convert_numeric groups variables
      = Raise (ValueError (InvalidLiteral s')) ∧
    variable' ∈ variables ∧ groups !! variable' = Some (AStr s') ∧
    s' ≠ "" ∧ int_of_str s' = None.
Proof.
  intros Hnd. revert groups.
  induction Hnd as [|v vs Hv Hnd IH]; intros groups Hin Hg Hs Hi.
  - by apply elem_of_nil in Hin.
  - simpl. destruct (convert_numeric groups v) as [groups'|e] eqn:Hc.
    + assert (variable ≠ v) as Hne.
      { intros ->. unfold convert_numeric in Hc. rewrite Hg in Hc. simpl in Hc.
        rewrite Hi in Hc.
        destruct (String.eqb_spec s ""); [done|discriminate]. }
      apply elem_of_cons in Hin as [?|Hin]; [done|].
      destruct (IH groups' Hin) as (v' & s' & Hf & Hv' & Hg' & Hs' & Hi');
        [|done..|].
      { rewrite (convert_numeric_other _ _ _ _ Hc) by done. done. }
      exists v', s'. simpl. split; [done|].
      split; [by right|].
      split; [|done].
      rewrite <- Hg'. symmetry. apply (convert_numeric_other _ _ _ _ Hc).
      intros ->. done.
    + unfold convert_numeric in Hc.
      destruct (groups !! v) as [a|] eqn:Ha; [|discriminate].
      destruct (truthy_atom a) eqn:Ht; [|discriminate].
      destruct a as [|b|z|t]; simpl in Hc; try discriminate.
      destruct (int_of_str t) eqn:Hit; [discriminate|].
      injection Hc as <-. exists v, t. simpl.
      split; [done|]. split; [left|]. split; [done|]. split; [|done].
      intros ->. discriminate.
Qed.

(** The groups of a match, once the severity label has been replaced. *)
Lemma map_severity_other severity_map (groups : gmap string atom) key :
  key ≠ "severity" → map_severity severity_map groups !! key = groups !! key.
Proof.
  intros Hne. unfold map_severity.
  destruct severity_map as [?|d|?]; try done.
  destruct (groups !! "severity") as [label|]; [|done].
  destruct (d !! label); [|done]. by rewrite lookup_insert_ne.
Qed.

Lemma format_origin_other klass_name (groups : gmap string atom) key :
  key ≠ "origin" → format_origin klass_name groups !! key = groups !! key.
Proof.
  intros Hne. unfold format_origin.
  destruct (groups !! "origin"); [|done]. by rewrite lookup_insert_ne.
Qed.

Lemma numeric_groups_NoDup : NoDup numeric_groups.
Proof. unfold numeric_groups. apply (bool_decide_unpack _). by vm_compute. Qed.

(** What the loop leaves under the name of each group it visits. *)
Lemma for_each_numeric_lookup variables :
  NoDup variables →
  ∀ groups groups' variable,
    for_each convert_numeric groups variables = Return groups' →
    variable ∈ variables →
    match groups !! variable with
    | None => groups' !! variable = None
    | Some a =>
        if truthy_atom a
        then ∃ z, py_int a = Return z ∧ groups' !! variable = Some (AInt z)
        else groups' !! variable = Some a
    end.
Proof.
  induction 1 as [|v vs Hv Hnd IH]; intros groups groups' variable Hf Hin.
  - by apply elem_of_nil in Hin.
  - simpl in Hf. inv_bind Hf. rename a into g1.
    destruct (decide (variable = v)) as [->|Hne].
    + rewrite (for_each_numeric_other _ _ _ _ Hf Hv).
      unfold convert_numeric in Ha.
      destruct (groups !! v) as [a|] eqn:Hg.
      * destruct (truthy_atom a).
        -- inv_bind Ha. injection Ha as <-. eexists.
           split; [done|]. by rewrite lookup_insert_eq.
        -- by injection Ha as <-.
      * by injection Ha as <-.
    + apply elem_of_cons in Hin as [?|Hin]; [done|].
      rewrite <- (convert_numeric_other _ _ _ _ Ha Hne).
      by apply IH.
Qed.

(** The loop ends well when [int] accepts every capture it is given. *)
Lemma for_each_numeric_total variables :
  ∀ groups,
    (∀ variable a,
       variable ∈ variables → groups !! variable = Some a →
       truthy_atom a = true → ∃ z, py_int a = Return z) →
    NoDup variables →
    ∃ groups', for_each convert_numeric groups variables = Return groups'.
Proof.
  induction variables as [|v vs IH]; intros groups Hok Hnd; [by eexists|].
  apply NoDup_cons in Hnd as [Hv Hnd]. simpl.
  assert (∃ g1, convert_numeric groups v = Return g1) as [g1 Hg1].
  { unfold convert_numeric. destruct (groups !! v) as [a|] eqn:Hg; [|eauto].
    destruct (truthy_atom a) eqn:Ht; [|eauto].
    destruct (Hok v a) as [z ->]; [left|done..|]. eauto. }
  rewrite Hg1, Return_bind. apply IH; [|done].
  intros variable a Hin Hg Ht. apply (Hok variable a); [by right| |done].
  rewrite <- Hg. symmetry. apply (convert_numeric_other _ _ _ _ Hg1).
  intros ->. done.
Qed.

(** The numeric groups of a match, as the loop finds them. *)
Lemma numeric_group_lookup severity_map (m : Match) variable :
  variable ∈ numeric_groups →
  map_severity severity_map (capture <$> m) !! variable
    = capture <$> m !! variable.
Proof.
  intros Hv. rewrite map_severity_other, lookup_fmap; [done|].
  intros ->. revert Hv. by apply (bool_decide_unpack _).
Qed.

Lemma numeric_groups_total severity_map (m : Match) :
  numeric_groups_fine m = true →
  ∃ groups,
    for_each convert_numeric (map_severity severity_map (capture <$> m))
      numeric_groups = Return groups.
Proof.
  intros Hfine. apply for_each_numeric_total; [|apply numeric_groups_NoDup].
  intros variable a Hv Hg Ht. rewrite numeric_group_lookup in Hg by done.
  unfold numeric_groups_fine in Hfine. rewrite forallb_forall in Hfine.
  specialize (Hfine variable). rewrite <- list_elem_of_In in Hfine.
  specialize (Hfine Hv).
  destruct (m !! variable) as [[s|]|] eqn:Hm; simpl in Hg; try discriminate.
  - injection Hg as <-. simpl in Ht.
    destruct (String.eqb s ""); [discriminate|]. simpl in Hfine.
    apply bool_decide_eq_true in Hfine as [z Hz].
    exists z. simpl. by rewrite Hz.
  - injection Hg as <-. discriminate.
Qed.

(** The loop raises nothing but the [ValueError] of [int]: what is
    not truthy is left alone, and [int] takes every truthy object that
    is not a string. *)
Lemma for_each_numeric_error variables groups e :
  for_each convert_numeric groups variables = Raise e →
  ∃ s, e = ValueError (InvalidLiteral s).
Proof.
  revert groups. induction variables as [|v vs IH]; intros groups Hf.
  - discriminate.
  - simpl in Hf.
    destruct (convert_numeric groups v) as [g1|e1] eqn:Hc; [by eauto|].
    simpl in Hf. injection Hf as <-. unfold convert_numeric in Hc.
    destruct (groups !! v) as [a|]; [|discriminate].
    destruct (truthy_atom a) eqn:Ht; [|discriminate].
    destruct a as [|b|z|s]; simpl in Hc, Ht; try discriminate.
    destruct (int_of_str s); [discriminate|].
    simpl in Hc. injection Hc as <-. eauto.
Qed.

(** What [Result.from_values] builds, and from what. *)
Lemma Result_from_values_Return o text file z line column end_line
    end_column r :
  Result_from_values o text file z line column end_line end_column
    = Return r →
  r = {| origin := o;
         message := VAtom text;
         affected_code := [FromValues file line column end_line end_column];
         severity := VInt z;
         diffs := ∅ |} ∧
  is_text text = true ∧ is_severity_code z = true ∧
  is_position line = true ∧ is_position column = true ∧
  is_position end_line = true ∧ is_position end_column = true.
Proof.
  unfold Result_from_values. intros Hr.
  destruct (is_text text); [|discriminate].
  destruct (is_severity_code z); [|discriminate].
  simpl in Hr.
  destruct (is_position line); [|discriminate].
  destruct (is_position column); [|discriminate].
  destruct (is_position end_line); [|discriminate].
  destruct (is_position end_column); [|discriminate].
  simpl in Hr. by injection Hr as <-.
Qed.

(** What a successful conversion went through. *)
Lemma convert_Return options klass_name (m : Match) filename r :
  _convert_output_regex_match_to_result options klass_name m filename
    = Return r →
  ∃ severity_map groups z,
    options !! "severity_map" = Some severity_map ∧
    for_each convert_numeric (map_severity severity_map (capture <$> m))
      numeric_groups = Return groups ∧
    py_int (default (AInt NORMAL)
              (format_origin klass_name groups !! "severity")) = Return z ∧
    is_severity_code z = true ∧
    severity r = VInt z ∧
    origin r = from_option OriginValue OriginBear
                 (format_origin klass_name groups !! "origin").
Proof.
  unfold _convert_output_regex_match_to_result. intros Hc.
  inv_bind Hc. rename a into severity_map. apply getitem_Return in Ha.
  inv_bind Hc. rename a into groups. inv_bind Hc. rename a into z.
  apply Result_from_values_Return in Hc as (-> & _ & Hz & _).
  by exists severity_map, groups, z.
Qed.

End Conversion.

(** C10: when the [origin] group is declared but takes no part in a
    match, the diagnostic built from the match has the origin
    ["<name> (None)"], where [<name>] is the name of the decorated
    class. *)
Theorem origin_of_silent_group `{PyEnv} options klass_name (m : Match)
    filename r :
  m !! "origin" = Some None →
  _convert_output_regex_match_to_result options klass_name m filename
    = Return r →
  origin r = OriginValue (AStr (klass_name +:+ " (None)")).
Proof.
  intros Hm Hc.
  apply convert_Return in Hc as (sm & groups & z & _ & Hf & _ & _ & _ & ->).
  assert (groups !! "origin" = Some ANone) as Ho.
  { rewrite (for_each_numeric_other _ _ _ _ Hf)
      by (by apply (bool_decide_unpack _)).
    rewrite map_severity_other by done.
    by rewrite lookup_fmap, Hm. }
  unfold format_origin. rewrite Ho. by rewrite lookup_insert_eq.
Qed.

(** C9: for an adapter that [Linter] has checked, take a match in
    which one of the groups [line], [column], [end_line], [end_column]
    captures text that is not empty and that [int] does not accept.
    When the pattern declares a [severity] group, the conversion of the
    match raises the [ValueError] of [int] on such a group. When it
    declares none, the conversion raises the [KeyError] of
    [options["severity_map"]] instead: the lookup comes before the loop
    over the numeric groups, and the error is the one that a match with
    well-formed numbers gets as well. *)
Theorem malformed_number_raises `{PyEnv} executable use_stdin use_stderr
    config_suffix kwargs options regex klass_name (m : Match) filename
    variable s :
  Linter executable false use_stdin use_stderr config_suffix kwargs
    = Return options →
  options !! "output_regex" = Some (VPattern regex) →
  variable ∈ numeric_groups →
  m !! variable = Some (Some s) → s ≠ "" → int_of_str s = None →
  if bool_decide ("severity" ∈ groupindex regex)
  then
    ∃ variable' s',
      _convert_output_regex_match_to_result options klass_name m filename
        = Raise (ValueError (InvalidLiteral s')) ∧
      variable' ∈ numeric_groups ∧ m !! variable' = Some (Some s') ∧
      s' ≠ "" ∧ int_of_str s' = None
  else
    _convert_output_regex_match_to_result options klass_name m filename
      = Raise (KeyError "severity_map").
Proof.
  intros HL Hr Hv Hm Hs Hi. apply Linter_Return in HL.
  apply check_regex_options_Return in HL as (regex' & Hr' & Hsm & _).
  rewrite Hr in Hr'. injection Hr' as <-.
  unfold _convert_output_regex_match_to_result.
  destruct (bool_decide ("severity" ∈ groupindex regex)).
  - destruct Hsm as [d Hsm]. apply getitem_Return in Hsm.
    rewrite Hsm, Return_bind. cbv zeta.
    assert (∀ key, key ∈ numeric_groups →
              map_severity (VDict d) (capture <$> m) !! key
                = capture <$> m !! key) as Hnum.
    { intros key Hk. rewrite map_severity_other, lookup_fmap; [done|].
      intros ->. revert Hk. by apply (bool_decide_unpack _). }
    destruct (for_each_numeric_Raise numeric_groups
                (map_severity (VDict d) (capture <$> m)) variable s)
      as (v' & s' & Hf & Hv' & Hg' & Hs' & Hi');
      [apply numeric_groups_NoDup|done| |done..|].
    { by rewrite Hnum, Hm. }
    rewrite Hf. exists v', s'.
    split; [done|]. split; [done|]. split; [|done].
    rewrite Hnum in Hg' by done.
    destruct (m !! v') as [[t|]|]; simpl in Hg'; congruence.
  - by rewrite (getitem_Raise _ _ Hsm).
Qed.

(** C2, amended: with a severity map among the options, a diagnostic
    built from a match whose severity label is a key of the map has
    exactly the mapped severity. For a label that is not a key of the
    map nothing falls back to NORMAL: the label itself goes to [int].
    When the label spells no integer the conversion raises a
    [ValueError] and there is no diagnostic; the literal it complains
    of is the label when the numeric groups are well formed. A
    diagnostic is built only when the label spells one of the three
    severity codes, and then has that severity. *)
Theorem severity_of_label `{PyEnv} options klass_name (m : Match) filename
    d label :
  options !! "severity_map" = Some (VDict d) →
  m !! "severity" = Some (Some label) →
  (∀ z r,
     d !! AStr label = Some (AInt z) →
     _convert_output_regex_match_to_result options klass_name m filename
       = Return r →
     severity r = VInt z) ∧
  (d !! AStr label = None →
   (∀ r,
      _convert_output_regex_match_to_result options klass_name m filename
        = Return r →
      ∃ z, int_of_str label = Some z ∧ is_severity_code z = true ∧
           severity r = VInt z) ∧
   (int_of_str label = None →
    (∃ s,
       _convert_output_regex_match_to_result options klass_name m filename
         = Raise (ValueError (InvalidLiteral s))) ∧
    (numeric_groups_fine m = true →
     _convert_output_regex_match_to_result options klass_name m filename
       = Raise (ValueError (InvalidLiteral label))))).
Proof.
  intros Hsm Hm.
  assert (∀ groups,
     for_each convert_numeric (map_severity (VDict d) (capture <$> m))
       numeric_groups = Return groups →
     format_origin klass_name groups !! "severity"
       = Some (default (AStr label) (d !! AStr label))) as Hsev.
  { intros groups Hf. rewrite format_origin_other by done.
    rewrite (for_each_numeric_other _ _ _ _ Hf)
      by (by apply (bool_decide_unpack _)).
    unfold map_severity. rewrite lookup_fmap, Hm. simpl.
    destruct (d !! AStr label) as [sev|]; simpl.
    - by rewrite lookup_insert_eq.
    - by rewrite lookup_fmap, Hm. }
  assert (∀ r,
     _convert_output_regex_match_to_result options klass_name m filename
       = Return r →
     ∃ z, py_int (default (AStr label) (d !! AStr label)) = Return z ∧
          is_severity_code z = true ∧ severity r = VInt z) as Hmain.
  { intros r Hc.
    apply convert_Return in Hc
      as (sm & groups & z & Hsm' & Hf & Hz & Hcode & -> & _).
    rewrite Hsm in Hsm'. injection Hsm' as <-.
    exists z. split; [|done]. by rewrite (Hsev _ Hf) in Hz. }
  split; [|intros Hd; split; [|intros Hi; split]].
  - intros z r Hd Hc. destruct (Hmain r Hc) as (z' & Hz & _ & ->).
    rewrite Hd in Hz. simpl in Hz. congruence.
  - intros r Hc. destruct (Hmain r Hc) as (z & Hz & Hcode & ->).
    rewrite Hd in Hz. simpl in Hz.
    destruct (int_of_str label); [|discriminate].
    injection Hz as ->. eauto.
  - unfold _convert_output_regex_match_to_result.
    apply getitem_Return in Hsm. rewrite Hsm, Return_bind. cbv zeta.
    destruct (for_each convert_numeric
                (map_severity (VDict d) (capture <$> m)) numeric_groups)
      as [groups|e] eqn:Hf.
    + rewrite Return_bind. cbv zeta. rewrite (Hsev _ eq_refl), Hd. simpl.
      rewrite Hi. simpl. eauto.
    + destruct (for_each_numeric_error _ _ _ Hf) as [s ->]. simpl. eauto.
  - intros Hfine. unfold _convert_output_regex_match_to_result.
    apply getitem_Return in Hsm. rewrite Hsm, Return_bind. cbv zeta.
    destruct (numeric_groups_total (VDict d) m Hfine) as [groups Hf].
    rewrite Hf, Return_bind. cbv zeta. rewrite (Hsev _ Hf), Hd. simpl.
    by rewrite Hi.
Qed.

(** ** The diagnostics of a pattern-mode run *)

Lemma yield_each_spec {A B} (f : A → outcome B) xs rs e :
  yield_each f xs = (rs, e) →
  Forall2 (λ x r, f x = Return r) (take (length rs) xs) rs ∧
  match e with
  | None => length rs = length xs
  | Some err => ∃ x, xs !! length rs = Some x ∧ f x = Raise err
  end.
Proof.
  revert rs e. induction xs as [|x xs IH]; intros rs e Hy; simpl in Hy.
  - injection Hy as <- <-. by split; [constructor|].
  - destruct (f x) as [b|err] eqn:Hf.
    + destruct (yield_each f xs) as [bs e'] eqn:Hy'.
      injection Hy as <- <-. destruct (IH bs e' eq_refl) as [IH1 IH2].
      split; [by constructor|].
      destruct e' as [err|]; simpl; [done|]. by rewrite IH2.
    + injection Hy as <- <-. split; [constructor|]. exists x. by split.
Qed.

(** The diagnostics of a pattern-mode run, match by match. *)
Lemma process_output_regex_spec `{PyEnv} options klass_name output
    filename file regex rs e :
  options !! "output_regex" = Some (VPattern regex) →
  _process_output_regex options klass_name output filename file = (rs, e) →
  Forall2
    (λ m r, _convert_output_regex_match_to_result options klass_name m
              filename = Return r)
    (take (length rs) (finditer regex output)) rs ∧
  match e with
  | None => length rs = length (finditer regex output)
  | Some err =>
      ∃ m, finditer regex output !! length rs = Some m ∧
           _convert_output_regex_match_to_result options klass_name m
             filename = Raise err
  end.
Proof.
  intros Hr Hp. unfold _process_output_regex in Hp.
  apply getitem_Return in Hr. rewrite Hr in Hp.
  by apply yield_each_spec in Hp.
Qed.

(** ** The generated class *)

Lemma create_linter_members `{PyEnv} executable provides_correction use_stdin
    use_stderr config_suffix kwargs options klass cls :
  Linter executable provides_correction use_stdin use_stderr config_suffix
    kwargs = Return options →
  create_linter options klass = Return cls →
  get_interface cls = klass ∧
  get_executable cls = Return (VStr executable) ∧
  _process_output cls =
    (if provides_correction then _process_output_diff options
     else _process_output_regex options (klass_name klass)) ∧
  _grab_output cls =
    (if use_stderr then λ stdout stderr, stderr
     else λ stdout stderr, stdout) ∧
  _pass_file_as_stdin_if_needed cls =
    (if use_stdin then λ file, Some file else λ file, None).
Proof.
  intros HL Hc.
  apply Linter_base_options in HL as (He & Hp & Hi & Hr & _).
  unfold create_linter in Hc.
  apply getitem_Return in He, Hp, Hi, Hr. rewrite Hp, Hr, Hi in Hc.
  injection Hc as <-. unfold get_executable. simpl. rewrite He.
  by destruct provides_correction, use_stderr, use_stdin.
Qed.

(** After a successful validation the class is always created. *)
Lemma create_linter_Return `{PyEnv} executable provides_correction use_stdin
    use_stderr config_suffix kwargs options klass :
  Linter executable provides_correction use_stdin use_stderr config_suffix
    kwargs = Return options →
  ∃ cls, create_linter options klass = Return cls.
Proof.
  intros HL. apply Linter_base_options in HL as (_ & Hp & Hi & Hr & _).
  unfold create_linter.
  apply getitem_Return in Hp, Hi, Hr. rewrite Hp, Hr, Hi. by eexists.
Qed.

(** ** Edit scripts and hunks *)

Lemma original_of_Insert ls : original_of (Insert <$> ls) = [].
Proof. induction ls as [|l ls IH]; csimpl; auto. Qed.

Lemma corrected_of_Insert ls : corrected_of (Insert <$> ls) = ls.
Proof. induction ls as [|l ls IH]; csimpl; congruence. Qed.

Lemma original_of_Delete ls : original_of (Delete <$> ls) = ls.
Proof. induction ls as [|l ls IH]; csimpl; congruence. Qed.

Lemma corrected_of_Delete ls : corrected_of (Delete <$> ls) = [].
Proof. induction ls as [|l ls IH]; csimpl; auto. Qed.

(** The computed script is a diff of its two arguments. *)
Lemma from_string_arrays_sound file_array_1 file_array_2 :
  original_of (from_string_arrays file_array_1 file_array_2) = file_array_1 ∧
  corrected_of (from_string_arrays file_array_1 file_array_2) = file_array_2.
Proof.
  revert file_array_2.
  induction file_array_1 as [|x rest_1 IH1]; intros file_array_2.
  - simpl. by rewrite original_of_Insert, corrected_of_Insert.
  - induction file_array_2 as [|y rest_2 IH2].
    + change (from_string_arrays (x :: rest_1) [])
        with (Delete <$> x :: rest_1).
      by rewrite original_of_Delete, corrected_of_Delete.
    + change (from_string_arrays (x :: rest_1) (y :: rest_2)) with
        (if decide (x = y) then Keep x :: from_string_arrays rest_1 rest_2
         else
           let deleting :=
             Delete x :: from_string_arrays rest_1 (y :: rest_2) in
           let inserting :=
             Insert y :: from_string_arrays (x :: rest_1) rest_2 in
           if decide (kept inserting ≤ kept deleting)%nat
           then deleting else inserting).
      destruct (decide (x = y)) as [->|Hne].
      * cbn [original_of corrected_of].
        destruct (IH1 rest_2) as [-> ->]. done.
      * cbv zeta. case_decide; cbn [original_of corrected_of].
        -- destruct (IH1 (y :: rest_2)) as [-> ->]. done.
        -- destruct IH2 as [-> ->]. done.
Qed.

Lemma splitlines_cons c rest :
  splitlines (String c rest) =
    if is_cr c then
      match rest with
      | String c' rest' =>
          if is_lf c'
          then String c (String c' EmptyString) :: splitlines rest'
          else String c EmptyString :: splitlines rest
      | EmptyString => [String c EmptyString]
      end
    else if is_linebreak c then String c EmptyString :: splitlines rest
    else
      match splitlines rest with
      | [] => [String c EmptyString]
      | l :: ls => String c l :: ls
      end.
Proof. by destruct rest. Qed.

Lemma join_lines_cons l ls : join_lines (l :: ls) = (l +:+ join_lines ls)%string.
Proof. reflexivity. Qed.

(** [splitlines] keeps every character. *)
Lemma join_lines_splitlines s : join_lines (splitlines s) = s.
Proof.
  assert (∀ n s, (String.length s ≤ n)%nat → join_lines (splitlines s) = s)
    as Hn; [|by apply (Hn (String.length s))].
  clear s. induction n as [|n IH]; intros [|c rest] Hlen;
    [done|simpl in Hlen; lia|done|].
  simpl in Hlen. rewrite splitlines_cons.
  destruct (is_cr c).
  - destruct rest as [|c' rest']; [done|]. simpl in Hlen.
    destruct (is_lf c'); rewrite join_lines_cons.
    + rewrite IH by lia. done.
    + rewrite (IH (String c' rest')) by (simpl; lia). done.
  - destruct (is_linebreak c).
    + rewrite join_lines_cons, IH by lia. done.
    + specialize (IH rest ltac:(lia)).
      destruct (splitlines rest) as [|l ls].
      * by rewrite <- IH.
      * rewrite join_lines_cons in *. by rewrite <- IH.
Qed.

(** Applying the open hunk, once closed: [done] is the corrected text so
    far, [removed] the lines the hunk covers. *)
Lemma apply_flush (done removed rest added : list string) start :
  foldl apply_patch
    (done ++ removed ++ rest, Z.of_nat (length done) - Z.of_nat start)
    (flush start (length removed) added)
  = (done ++ added ++ rest,
     Z.of_nat (length (done ++ added))
     - Z.of_nat (start + length removed)).
Proof.
  assert (foldl apply_patch
            (done ++ removed ++ rest, Z.of_nat (length done) - Z.of_nat start)
            [{| h_start := start; h_len := length removed; h_added := added |}]
          = (done ++ added ++ rest,
             Z.of_nat (length (done ++ added))
             - Z.of_nat (start + length removed))) as Hone.
  { simpl.
    replace (Z.to_nat (Z.of_nat start
                       + (Z.of_nat (length done) - Z.of_nat start)))
      with (length done) by lia.
    rewrite take_app_length, drop_app_add, drop_app_length.
    f_equal. rewrite length_app. lia. }
  unfold flush. destruct removed as [|l removed], added as [|a added];
    try exact Hone.
  simpl. rewrite !app_nil_r. f_equal. lia.
Qed.

(** Applying, in order, the hunks of what is left of a script turns what
    is left of the original into what is left of the corrected text. *)
Lemma apply_split_from es :
  ∀ (done removed added : list string) start,
    (foldl apply_patch
       (done ++ removed ++ original_of es,
        Z.of_nat (length done) - Z.of_nat start)
       (split_from start (length removed) added es)).1
    = done ++ added ++ corrected_of es.
Proof.
  induction es as [|[l|l|l] es IH]; intros done removed added start; simpl.
  - by rewrite apply_flush.
  - rewrite foldl_app, apply_flush.
    specialize (IH (done ++ added ++ [l]) [] [] (start + length removed + 1)%nat).
    simpl in IH. rewrite <- !app_assoc in IH. simpl in IH.
    rewrite <- IH. do 3 f_equal. rewrite !length_app. simpl. lia.
  - specialize (IH done (removed ++ [l]) added start).
    rewrite length_app in IH. simpl in IH.
    rewrite <- !app_assoc in IH. by simpl in IH.
  - specialize (IH done removed (added ++ [l]) start).
    rewrite <- !app_assoc in IH. by simpl in IH.
Qed.

Lemma apply_patches_split_diff es :
  apply_patches (original_of es) (split_diff es) = corrected_of es.
Proof.
  unfold apply_patches, split_diff.
  exact (apply_split_from es [] [] [] 0%nat).
Qed.

Lemma apart_from_le lo lo' hs :
  (lo ≤ lo')%nat → apart_from lo' hs → apart_from lo hs.
Proof. destruct hs; simpl; [done|]. intros ? [? ?]. split; [lia|done]. Qed.

Lemma split_from_apart es :
  ∀ start len added, apart_from start (split_from start len added es).
Proof.
  induction es as [|[l|l|l] es IH]; intros start len added; simpl.
  - unfold flush. destruct len, added; simpl; auto.
  - specialize (IH (start + len + 1)%nat 0%nat []).
    unfold flush. destruct len, added; simpl; auto.
    eapply apart_from_le; [|done]. lia.
  - apply IH.
  - apply IH.
Qed.

Lemma apart_from_lookup hs :
  ∀ lo i h, apart_from lo hs → hs !! i = Some h → (lo ≤ h_start h)%nat.
Proof.
  induction hs as [|h' hs IH]; intros lo i h Ha Hi; [done|].
  destruct Ha as [Hlo Ha]. destruct i as [|i]; simpl in Hi.
  - by injection Hi as <-.
  - specialize (IH _ _ _ Ha Hi). lia.
Qed.

Lemma apart_from_pairwise hs :
  ∀ lo i j h1 h2,
    apart_from lo hs → (i < j)%nat →
    hs !! i = Some h1 → hs !! j = Some h2 →
    (h_start h1 + h_len h1 < h_start h2)%nat.
Proof.
  induction hs as [|h hs IH]; intros lo i j h1 h2 Ha Hij H1 H2; [done|].
  destruct Ha as [Hlo Ha]. destruct j as [|j]; [lia|]. simpl in H2.
  destruct i as [|i]; simpl in H1.
  - injection H1 as <-. pose proof (apart_from_lookup _ _ _ _ Ha H2). lia.
  - eapply (IH _ i j); eauto. lia.
Qed.

(** ** The diagnostics of a diff-mode run *)

Lemma yield_each_total {A B} (f : A → outcome B) (g : A → B) xs :
  (∀ x, f x = Return (g x)) → yield_each f xs = (g <$> xs, None).
Proof.
  intros Hf. induction xs as [|x xs IH]; [done|].
  simpl. by rewrite Hf, IH.
Qed.

Lemma patches_diff_result diff_message diff_severity filename hs :
  patches (diff_result diff_message diff_severity filename <$> hs) = hs.
Proof.
  unfold patches. induction hs as [|h hs IH]; [done|].
  csimpl. rewrite IH. by rewrite map_to_list_singleton.
Qed.

(** With both diff options present, every hunk is emitted. *)
Lemma process_output_diff_total `{PyEnv} executable use_stdin use_stderr
    config_suffix kwargs options output filename file :
  Linter executable true use_stdin use_stderr config_suffix kwargs
    = Return options →
  ∃ diff_message diff_severity,
    _process_output_diff options output filename file =
      (diff_result diff_message diff_severity filename
         <$> split_diff (from_string_arrays file (splitlines output)),
       None).
Proof.
  intros HL. apply Linter_Return in HL.
  apply check_diff_options_Return in HL as ([dm Hm] & [ds Hs] & _).
  exists dm, ds. unfold _process_output_diff.
  apply yield_each_total. intros h.
  apply getitem_Return in Hm, Hs. by rewrite Hm, Hs.
Qed.

(** C4: in diff mode every hunk of the diff between the original lines
    and the lines of the output is emitted, and applying the patches of
    the emitted diagnostics one after the other, in range order, to the
    original lines gives the lines of the corrected output, which spell
    the output text exactly. *)
Theorem patches_rebuild_corrected_output `{PyEnv} executable use_stdin
    use_stderr config_suffix kwargs options klass cls output filename file :
  Linter executable true use_stdin use_stderr config_suffix kwargs
    = Return options →
  create_linter options klass = Return cls →
  ∃ rs,
    _process_output cls output filename file = (rs, None) ∧
    apply_patches file (patches rs) = splitlines output ∧
    join_lines (apply_patches file (patches rs)) = output.
Proof.
  intros HL Hc.
  destruct (create_linter_members _ _ _ _ _ _ _ _ _ HL Hc)
    as (_ & _ & -> & _).
  destruct (process_output_diff_total _ _ _ _ _ _ output filename file HL)
    as (dm & ds & ->).
  eexists. split; [done|].
  rewrite patches_diff_result.
  pose proof (from_string_arrays_sound file (splitlines output)) as [Ho Hn].
  assert (apply_patches file
            (split_diff (from_string_arrays file (splitlines output)))
          = splitlines output) as Happly.
  { rewrite <- Ho at 1. rewrite apply_patches_split_diff. exact Hn. }
  split; [done|]. rewrite Happly. apply join_lines_splitlines.
Qed.

(** C6: in diff mode, of two emitted diagnostics the earlier one covers
    a span of original lines that starts strictly before the span of
    the later one and ends before it starts: the spans are pairwise
    disjoint, in strictly increasing order of their first line. *)
Theorem hunks_disjoint_and_increasing `{PyEnv} executable use_stdin
    use_stderr config_suffix kwargs options klass cls output filename file
    rs e i j r1 r2 :
  Linter executable true use_stdin use_stderr config_suffix kwargs
    = Return options →
  create_linter options klass = Return cls →
  _process_output cls output filename file = (rs, e) →
  (i < j)%nat → rs !! i = Some r1 → rs !! j = Some r2 →
  ∃ h1 h2,
    affected_code r1 = [LineSpan filename (h_start h1) (h_len h1)] ∧
    diffs r1 = {[filename := h1]} ∧
    affected_code r2 = [LineSpan filename (h_start h2) (h_len h2)] ∧
    diffs r2 = {[filename := h2]} ∧
    (h_start h1 < h_start h2)%nat ∧
    (h_start h1 + h_len h1 ≤ h_start h2)%nat.
Proof.
  intros HL Hc Hp Hij H1 H2.
  destruct (create_linter_members _ _ _ _ _ _ _ _ _ HL Hc)
    as (_ & _ & Hpo & _).
  rewrite Hpo in Hp.
  destruct (process_output_diff_total _ _ _ _ _ _ output filename file HL)
    as (dm & ds & Hd).
  rewrite Hd in Hp. injection Hp as <- <-.
  apply list_lookup_fmap_Some in H1 as (h1 & -> & Hh1).
  apply list_lookup_fmap_Some in H2 as (h2 & -> & Hh2).
  exists h1, h2. do 4 (split; [done|]).
  pose proof (split_from_apart
                (from_string_arrays file (splitlines output)) 0 0 [])
    as Hapart.
  pose proof (apart_from_pairwise _ _ _ _ _ _ Hapart Hij Hh1 Hh2). lia.
Qed.

(** ** The diagnostics of a pattern-mode run, for a checked adapter *)

(** C5, amended: for a pattern-mode adapter and any output text, the
    diagnostics emitted are, in left-to-right match order, the
    conversions of the matches that precede the first match whose
    conversion raises; the sequence then ends with that exception.
    When no conversion raises there is exactly one diagnostic per
    match. *)
Theorem one_result_per_converted_match `{PyEnv} executable use_stdin
    use_stderr config_suffix kwargs options klass cls output filename file
    rs e :
  Linter executable false use_stdin use_stderr config_suffix kwargs
    = Return options →
  create_linter options klass = Return cls →
  _process_output cls output filename file = (rs, e) →
  ∃ regex,
    options !! "output_regex" = Some (VPattern regex) ∧
    Forall2
      (λ m r, _convert_output_regex_match_to_result options
                (klass_name klass) m filename = Return r)
      (take (length rs) (finditer regex output)) rs ∧
    match e with
    | None => length rs = length (finditer regex output)
    | Some err =>
        ∃ m, finditer regex output !! length rs = Some m ∧
             _convert_output_regex_match_to_result options
               (klass_name klass) m filename = Raise err
    end.
Proof.
  intros HL Hc Hp.
  destruct (create_linter_members _ _ _ _ _ _ _ _ _ HL Hc)
    as (_ & _ & Hpo & _).
  rewrite Hpo in Hp. apply Linter_Return in HL.
  apply check_regex_options_Return in HL as (regex & Hr & _).
  exists regex. split; [done|].
  by apply (process_output_regex_spec _ _ _ _ file).
Qed.

(** ** One run of the bear *)

(** C7: the diagnostics of a run are those of the text of the selected
    stream. A run succeeds whenever the configuration file can be
    prepared and the process can be started, whatever the exit status;
    two machines whose processes agree on the selected stream give the
    same run, whatever the exit statuses and the other stream; and in
    pattern mode the diagnostics do not depend on the content of the
    file. *)
Theorem run_depends_on_selected_stream `{PyEnv} executable
    provides_correction use_stdin use_stderr config_suffix kwargs options
    klass cls filename file settings :
  Linter executable provides_correction use_stdin use_stderr config_suffix
    kwargs = Return options →
  create_linter options klass = Return cls →
  (∀ machine config_file files finished,
     _create_config cls machine filename file settings
       = Return (config_file, files) →
     spawn machine files
       (VStr executable ::
          (VAtom ∘ AStr
             <$> create_arguments klass filename file config_file settings))
       (if use_stdin then Some file else None) = Return finished →
     run cls machine filename file settings
       = Return (_process_output cls (selected use_stderr finished)
                   filename file)) ∧
  (∀ machine machine',
     make_temp machine = make_temp machine' →
     (∀ files command stdin,
        outcome_map (selected use_stderr) (spawn machine files command stdin)
        = outcome_map (selected use_stderr)
            (spawn machine' files command stdin)) →
     run cls machine filename file settings
       = run cls machine' filename file settings) ∧
  (provides_correction = false →
   ∀ output file',
     _process_output cls output filename file
       = _process_output cls output filename file').
Proof.
  intros HL Hc.
  destruct (create_linter_members _ _ _ _ _ _ _ _ _ HL Hc)
    as (Hi & He & Hpo & Hg & Hs).
  assert (∀ machine,
            run cls machine filename file settings =
              ('(config_file, files) ←
                 _create_config cls machine filename file settings;
               finished ←
                 spawn machine files
                   (VStr executable ::
                      (VAtom ∘ AStr
                         <$> create_arguments klass filename file
                               config_file settings))
                   (if use_stdin then Some file else None);
               Return (_process_output cls (selected use_stderr finished)
                         filename file))) as Hrun.
  { intros machine. unfold run.
    destruct (_create_config cls machine filename file settings)
      as [[config_file files]|err]; [|done].
    rewrite !Return_bind. unfold _execute_command, run_shell_command.
    rewrite He, Hi, Hs, Hg, Return_bind.
    replace ((if use_stdin then λ file0 : list string, Some file0
              else λ _ : list string, None) file)
      with (if use_stdin then Some file else None)
      by (by destruct use_stdin).
    destruct (spawn machine files _ _) as [finished|err]; [|done].
    rewrite !Return_bind. unfold selected. by destruct use_stderr. }
  split; [|split].
  - intros machine config_file files finished Hcfg Hsp.
    by rewrite Hrun, Hcfg, Return_bind, Hsp.
  - intros machine machine' Htemp Hsel. rewrite !Hrun.
    assert (_create_config cls machine filename file settings
            = _create_config cls machine' filename file settings) as ->.
    { unfold _create_config. by rewrite Htemp. }
    destruct (_create_config cls machine' filename file settings)
      as [[config_file files]|err]; [|done].
    rewrite !Return_bind.
    specialize (Hsel files
      (VStr executable ::
         (VAtom ∘ AStr
            <$> create_arguments klass filename file config_file settings))
      (if use_stdin then Some file else None)).
    destruct (spawn machine files _ _) as [finished|err],
             (spawn machine' files _ _) as [finished'|err'];
      simpl in Hsel; try discriminate.
    + rewrite !Return_bind. injection Hsel as ->. done.
    + by injection Hsel as ->.
  - intros -> output file'. by rewrite Hpo.
Qed.

(** * The properties on the examples *)

(** ** The example adapters pass the validation *)

Lemma Linter_plain :
  Linter "xlint" false false false ".xml" plain_kwargs = Return plain_options.
Proof. vm_compute. exact eq_refl. Qed.

Lemma Linter_located :
  Linter "xlint" false false false "" located_kwargs = Return located_options.
Proof. vm_compute. exact eq_refl. Qed.

Lemma Linter_tagged :
  Linter "xlint" false false false "" tagged_kwargs = Return tagged_options.
Proof. vm_compute. exact eq_refl. Qed.

Lemma Linter_xfix :
  Linter "xfix" true false false "" ∅ = Return xfix_options.
Proof. vm_compute. exact eq_refl. Qed.

(** ** Instances of the properties *)

(** No severity group in the pattern: the match of [12: trailing
    whitespace] is not converted. *)
Lemma convert_without_severity_group_witness :
  _convert_output_regex_match_to_result plain_options "XLintBear"
    {["line" := Some "12"; "message" := Some "trailing whitespace"]} "a.c"
  = Raise (KeyError "severity_map").
Proof.
  apply (convert_without_severity_group "xlint" false false ".xml"
           plain_kwargs plain_options plain_pattern).
  - exact Linter_plain.
  - vm_compute. exact eq_refl.
  - apply (bool_decide_unpack _). vm_compute. exact I.
Defined.

(** The suffix [.xml] is asked for, and the configuration file is made
    with the suffix [False]. *)
Lemma config_suffix_is_use_stderr_witness :
  ∃ cls,
    create_linter plain_options XConfigBear = Return cls ∧
    plain_options !! "config_suffix" = Some (VBool false) ∧
    _create_config cls complaining "a.c" [] ∅ =
      (config_file ← make_temp complaining (VBool false);
       Return (Some config_file, {[config_file := "<xlint></xlint>"]})).
Proof.
  destruct (create_linter_Return _ _ _ _ _ _ _ XConfigBear Linter_plain)
    as [cls Hcls].
  exists cls. split; [exact Hcls|].
  destruct (config_suffix_is_use_stderr _ _ _ _ _ _ _ _ _ Linter_plain Hcls)
    as [Hs Hc].
  split; [exact Hs|]. apply Hc. exact eq_refl.
Defined.

(** C8, as stated, fails: with [diff_severity={}] beside [output_regex]
    the call raises the [TypeError] of the membership test on a dict,
    [unhashable type: 'dict'], which names no option. *)
Lemma unhashable_diff_severity_comes_first :
  Linter "xfix" true false false ""
    {["output_regex" := VStr "x"; "diff_severity" := VDict ∅]}
  = Raise (TypeError Unhashable).
Proof. vm_compute. exact eq_refl. Qed.

(** [@Linter("xfix", provides_correction=True, output_regex="x")] *)
Lemma output_regex_rejected_with_correction_witness :
  Linter "xfix" true false false "" {["output_regex" := VStr "x"]}
  = Raise (ValueError (InvalidKeyword "output_regex")).
Proof.
  pose proof (output_regex_rejected_with_correction "xfix" false false ""
                {["output_regex" := VStr "x"]} python_set_pop_sound) as Hthm.
  destruct Hthm as (_ & Hkey & _).
  { rewrite lookup_singleton_eq. by eexists. }
  destruct Hkey as (key & He & _ & _ & Hk).
  - intros v Hv. rewrite lookup_singleton_ne in Hv by done. discriminate.
  - intros v Hv. rewrite lookup_singleton_ne in Hv by done. discriminate.
  - rewrite He. rewrite Hk; [exact eq_refl|]. rewrite dom_singleton_L.
    apply union_subseteq_r.
Defined.

(** No [severity] group in the pattern: the match of [EOF: missing
    newline], whose [line] is no number, gets the [KeyError] of the
    lookup and not the [ValueError] of [int]. *)
Lemma malformed_number_raises_witness :
  finditer plain_pattern "EOF: missing newline"
    = [{["line" := Some "EOF"; "message" := Some "missing newline"]}] ∧
  _convert_output_regex_match_to_result plain_options "XLintBear"
    {["line" := Some "EOF"; "message" := Some "missing newline"]} "a.c"
  = Raise (KeyError "severity_map").
Proof.
  split; [vm_compute; exact eq_refl|].
  assert (plain_options !! "output_regex" = Some (VPattern plain_pattern))
    as Hregex by (vm_compute; exact eq_refl).
  assert ("line" ∈ numeric_groups) as Hline
    by (apply (bool_decide_unpack _); vm_compute; exact I).
  assert (({["line" := Some "EOF"; "message" := Some "missing newline"]}
             : Match) !! "line" = Some (Some "EOF")) as Hm
    by (vm_compute; exact eq_refl).
  assert ("EOF" ≠ "") as Hs by discriminate.
  assert (int_of_str "EOF" = None) as Hi by (vm_compute; exact eq_refl).
  pose proof (malformed_number_raises "xlint" false false ".xml"
                plain_kwargs plain_options plain_pattern "XLintBear"
                {["line" := Some "EOF"; "message" := Some "missing newline"]}
                "a.c" "line" "EOF" Linter_plain Hregex Hline Hm Hs Hi)
    as Hthm.
  match type of Hthm with
  | if ?b then _ else _ =>
      assert (b = false) as Hb by (vm_compute; exact eq_refl);
      rewrite Hb in Hthm
  end.
  exact Hthm.
Defined.

(** The optional [origin] group takes no part in the match of
    [warning: unused]. *)
Lemma origin_of_silent_group_witness :
  ∃ r,
    _convert_output_regex_match_to_result tagged_options "XLintBear"
      {["severity" := Some "warning"; "message" := Some "unused";
        "origin" := None]} "a.c" = Return r ∧
    origin r = OriginValue (AStr "XLintBear (None)").
Proof.
  eexists. split; [vm_compute; exact eq_refl|].
  apply (origin_of_silent_group tagged_options "XLintBear"
           {["severity" := Some "warning"; "message" := Some "unused";
             "origin" := None]} "a.c").
  - vm_compute. exact eq_refl.
  - vm_compute. exact eq_refl.
Defined.

(** C2, as stated, fails: the label [fatal] is not a key of the default
    map, and the conversion of a match that captures it raises instead
    of giving a diagnostic of severity NORMAL. *)
Lemma unknown_label_is_an_error :
  Linter "xlint" false false false "" located_kwargs = Return located_options ∧
  located_options !! "severity_map" = Some (VDict default_severity_map) ∧
  default_severity_map !! AStr "fatal" = None ∧
  _convert_output_regex_match_to_result located_options "XLintBear"
    {["line" := Some "3"; "column" := Some "5";
      "severity" := Some "fatal"; "message" := Some "no such file"]} "a.c"
  = Raise (ValueError (InvalidLiteral "fatal")).
Proof.
  split; [exact Linter_located|].
  split; [vm_compute; exact eq_refl|].
  split; vm_compute; exact eq_refl.
Qed.

(** The label [warning] is a key of the default map. *)
Lemma severity_of_label_witness :
  ∃ r,
    _convert_output_regex_match_to_result located_options "XLintBear"
      {["line" := Some "3"; "column" := Some "5";
        "severity" := Some "warning"; "message" := Some "unused variable"]}
      "a.c" = Return r ∧
    severity r = VInt NORMAL.
Proof.
  eexists. split; [vm_compute; exact eq_refl|].
  edestruct (severity_of_label located_options "XLintBear"
               {["line" := Some "3"; "column" := Some "5";
                 "severity" := Some "warning";
                 "message" := Some "unused variable"]}
               "a.c" default_severity_map "warning") as [Hr _].
  - vm_compute. exact eq_refl.
  - vm_compute. exact eq_refl.
  - apply (Hr NORMAL); vm_compute; exact eq_refl.
Defined.

(** C5, as stated, fails: the pattern matches once in the text, and no
    diagnostic is emitted, because the conversion of the match raises. *)
Lemma fewer_results_than_matches :
  Linter "xlint" false false false "" located_kwargs = Return located_options ∧
  ∃ cls,
    create_linter located_options XLintBear = Return cls ∧
    length (finditer located_pattern "3:5: fatal: no such file") = 1%nat ∧
    _process_output cls "3:5: fatal: no such file" "a.c" []
    = ([], Some (ValueError (InvalidLiteral "fatal"))).
Proof.
  split; [exact Linter_located|].
  destruct (create_linter_Return _ _ _ _ _ _ _ XLintBear Linter_located)
    as [cls Hcls].
  exists cls. split; [exact Hcls|].
  split; [vm_compute; exact eq_refl|].
  destruct (create_linter_members _ _ _ _ _ _ _ _ _ Linter_located Hcls)
    as (_ & _ & -> & _).
  vm_compute. exact eq_refl.
Qed.

(** One match, one diagnostic. *)
Lemma one_result_per_converted_match_witness :
  ∃ cls rs regex,
    create_linter located_options XLintBear = Return cls ∧
    _process_output cls "3:5: warning: unused variable" "a.c" [] = (rs, None) ∧
    located_options !! "output_regex" = Some (VPattern regex) ∧
    length rs = length (finditer regex "3:5: warning: unused variable").
Proof.
  destruct (create_linter_Return _ _ _ _ _ _ _ XLintBear Linter_located)
    as [cls Hcls].
  assert (∃ rs, _process_output cls "3:5: warning: unused variable" "a.c" []
                = (rs, None)) as [rs Hrs].
  { destruct (create_linter_members _ _ _ _ _ _ _ _ _ Linter_located Hcls)
      as (_ & _ & -> & _).
    eexists. vm_compute. exact eq_refl. }
  destruct (one_result_per_converted_match _ _ _ _ _ _ _ _ _ _ _ _ _
              Linter_located Hcls Hrs) as (regex & Hr & _ & Hlen).
  by exists cls, rs, regex.
Defined.

(** The second of three lines is replaced. *)
Lemma patches_rebuild_corrected_output_witness :
  ∃ cls rs,
    create_linter xfix_options XLintBear = Return cls ∧
    _process_output cls (ln "a" +:+ ln "X" +:+ ln "c") "a.c"
      [ln "a"; ln "b"; ln "c"] = (rs, None) ∧
    apply_patches [ln "a"; ln "b"; ln "c"] (patches rs)
      = splitlines (ln "a" +:+ ln "X" +:+ ln "c") ∧
    join_lines (apply_patches [ln "a"; ln "b"; ln "c"] (patches rs))
      = ln "a" +:+ ln "X" +:+ ln "c".
Proof.
  destruct (create_linter_Return _ _ _ _ _ _ _ XLintBear Linter_xfix)
    as [cls Hcls].
  destruct (patches_rebuild_corrected_output _ _ _ _ _ _ _ _
              (ln "a" +:+ ln "X" +:+ ln "c") "a.c" [ln "a"; ln "b"; ln "c"]
              Linter_xfix Hcls) as (rs & Hrs & Happly & Hjoin).
  by exists cls, rs.
Defined.

(** The first and the third of three lines are replaced: two hunks. *)
Lemma hunks_disjoint_and_increasing_witness :
  ∃ cls rs r1 r2 h1 h2,
    create_linter xfix_options XLintBear = Return cls ∧
    _process_output cls (ln "X" +:+ ln "b" +:+ ln "Y") "a.c"
      [ln "a"; ln "b"; ln "c"] = (rs, None) ∧
    rs !! 0%nat = Some r1 ∧ rs !! 1%nat = Some r2 ∧
    affected_code r1 = [LineSpan "a.c" (h_start h1) (h_len h1)] ∧
    diffs r1 = {["a.c" := h1]} ∧
    affected_code r2 = [LineSpan "a.c" (h_start h2) (h_len h2)] ∧
    diffs r2 = {["a.c" := h2]} ∧
    (h_start h1 < h_start h2)%nat ∧
    (h_start h1 + h_len h1 ≤ h_start h2)%nat.
Proof.
  destruct (create_linter_Return _ _ _ _ _ _ _ XLintBear Linter_xfix)
    as [cls Hcls].
  assert (∃ r1 r2,
            _process_output cls (ln "X" +:+ ln "b" +:+ ln "Y") "a.c"
              [ln "a"; ln "b"; ln "c"] = ([r1; r2], None))
    as (r1 & r2 & Hrs).
  { destruct (create_linter_members _ _ _ _ _ _ _ _ _ Linter_xfix Hcls)
      as (_ & _ & -> & _).
    do 2 eexists. vm_compute. exact eq_refl. }
  destruct (hunks_disjoint_and_increasing _ _ _ _ _ _ _ _ _ _ _ _ _
              0%nat 1%nat r1 r2 Linter_xfix Hcls Hrs)
    as (h1 & h2 & Hspans); [lia|exact eq_refl|exact eq_refl|].
  by exists cls, [r1; r2], r1, r2, h1, h2.
Defined.

(** The process exits with status 1 and the run succeeds. *)
Lemma run_depends_on_selected_stream_witness :
  ∃ cls,
    create_linter located_options XLintBear = Return cls ∧
    run cls complaining "a.c" [] ∅
    = Return (_process_output cls "3:5: warning: unused variable" "a.c" []).
Proof.
  destruct (create_linter_Return _ _ _ _ _ _ _ XLintBear Linter_located)
    as [cls Hcls].
  exists cls. split; [exact Hcls|].
  destruct (run_depends_on_selected_stream _ _ _ _ _ _ _ _ _ "a.c" [] ∅
              Linter_located Hcls) as (Hrun & _ & _).
  apply (Hrun complaining None ∅
           {| stdout := "3:5: warning: unused variable";
              stderr := "";
              returncode := 1 |}).
  - destruct (create_linter_members _ _ _ _ _ _ _ _ _ Linter_located Hcls)
      as (Hi & _).
    unfold _create_config. rewrite Hi. exact eq_refl.
  - exact eq_refl.
Defined.

(** * More about the decorator *)

Section MoreValidation.
Context `{env : PyEnv}.

Lemma initial_options_other executable provides_correction use_stdin
    use_stderr kwargs key :
  key ∉ base_options →
  initial_options executable provides_correction use_stdin use_stderr kwargs
    !! key = kwargs !! key.
Proof.
  intros Hk. unfold initial_options, base_options in *.
  rewrite !lookup_insert_ne by set_solver. done.
Qed.

Lemma dom_initial_options executable provides_correction use_stdin
    use_stderr kwargs :
  dom (initial_options executable provides_correction use_stdin use_stderr
         kwargs) = dom kwargs ∪ base_options.
Proof.
  unfold initial_options, base_options. rewrite !dom_insert_L. set_solver.
Qed.

(** [Linter], with its first five assignments folded. *)
Lemma Linter_unfold executable provides_correction use_stdin use_stderr
    config_suffix kwargs :
  Linter executable provides_correction use_stdin use_stderr config_suffix
    kwargs =
  (options ←
     (if provides_correction then check_diff_options else check_regex_options)
       (initial_options executable provides_correction use_stdin use_stderr
          kwargs);
   if bool_decide (dom options ∖ allowed_options_of provides_correction ≠ ∅)
   then Raise (ValueError
                 (InvalidKeyword
                    (set_pop
                       (dom options ∖ allowed_options_of provides_correction))))
   else Return options).
Proof.
  unfold Linter. fold (initial_options executable provides_correction
                         use_stdin use_stderr kwargs).
  destruct provides_correction; simpl.
  - by destruct (check_diff_options _).
  - by destruct (check_regex_options _).
Qed.

End MoreValidation.

(** ** Options that fail the validation *)

(** Without [provides_correction], a call that gives no [output_regex]
    raises the [ValueError] that says so, whatever else it gives. *)
Theorem missing_output_regex `{PyEnv} executable use_stdin use_stderr
    config_suffix (kwargs : gmap string value) :
  kwargs !! "output_regex" = None →
  Linter executable false use_stdin use_stderr config_suffix kwargs
    = Raise (ValueError NoOutputRegex).
Proof.
  intros Hk. rewrite Linter_unfold. unfold check_regex_options.
  rewrite initial_options_other by (by apply (bool_decide_unpack _)).
  by rewrite Hk.
Qed.

(** The pattern is compiled when the decorator is called: a pattern
    that [re.compile] rejects makes the call raise what [re.compile]
    raises. *)
Theorem uncompilable_output_regex `{PyEnv} executable use_stdin use_stderr
    config_suffix (kwargs : gmap string value) source e :
  kwargs !! "output_regex" = Some source →
  re_compile source = Raise e →
  Linter executable false use_stdin use_stderr config_suffix kwargs = Raise e.
Proof.
  intros Hk Hc. rewrite Linter_unfold. unfold check_regex_options.
  rewrite initial_options_other by (by apply (bool_decide_unpack _)).
  by rewrite Hk, Hc.
Qed.

(** A [severity_map] given for a pattern that declares no [severity]
    group is refused, whatever the map is. *)
Theorem unused_severity_map `{PyEnv} executable use_stdin use_stderr
    config_suffix (kwargs : gmap string value) source regex :
  kwargs !! "output_regex" = Some source →
  re_compile source = Return regex →
  is_Some (kwargs !! "severity_map") →
  "severity" ∉ groupindex regex →
  Linter executable false use_stdin use_stderr config_suffix kwargs
    = Raise (ValueError SeverityMapUnused).
Proof.
  intros Hk Hc [m Hm] Hs. rewrite Linter_unfold. unfold check_regex_options.
  rewrite initial_options_other by (by apply (bool_decide_unpack _)).
  rewrite Hk, Hc, Return_bind. cbv zeta.
  rewrite lookup_insert_ne by done.
  rewrite initial_options_other by (by apply (bool_decide_unpack _)).
  rewrite Hm. by rewrite bool_decide_eq_true_2.
Qed.

(** A [severity_map] that is not a dictionary is refused with a
    [TypeError] that names the option. *)
Theorem severity_map_must_be_a_dict `{PyEnv} executable use_stdin use_stderr
    config_suffix (kwargs : gmap string value) source regex v :
  kwargs !! "output_regex" = Some source →
  re_compile source = Return regex →
  "severity" ∈ groupindex regex →
  kwargs !! "severity_map" = Some v →
  (∀ d, v ≠ VDict d) →
  Linter executable false use_stdin use_stderr config_suffix kwargs
    = Raise (TypeError (WrongType "severity_map")).
Proof.
  intros Hk Hc Hs Hm Hv. rewrite Linter_unfold. unfold check_regex_options.
  rewrite initial_options_other by (by apply (bool_decide_unpack _)).
  rewrite Hk, Hc, Return_bind. cbv zeta.
  rewrite lookup_insert_ne by done.
  rewrite initial_options_other by (by apply (bool_decide_unpack _)).
  rewrite Hm. rewrite bool_decide_eq_false_2 by (by intros ?).
  destruct v as [a|d|p]; try done. by destruct (Hv d).
Qed.

(** With [provides_correction], a [diff_severity] that can be looked up
    among the severity codes and is none of them is refused with a
    [TypeError] that shows it. *)
Theorem invalid_diff_severity `{PyEnv} executable use_stdin use_stderr
    config_suffix (kwargs : gmap string value) v :
  kwargs !! "diff_severity" = Some v →
  in_RESULT_SEVERITY_reverse v = Return false →
  Linter executable true use_stdin use_stderr config_suffix kwargs
    = Raise (TypeError (InvalidDiffSeverity v)).
Proof.
  intros Hk Hv. rewrite Linter_unfold. unfold check_diff_options.
  rewrite initial_options_other by (by apply (bool_decide_unpack _)).
  by rewrite Hk, Hv.
Qed.

(** ** What a successful validation leaves in the options *)

Lemma Linter_regex_Return `{PyEnv} executable use_stdin use_stderr
    config_suffix (kwargs : gmap string value) options :
  Linter executable false use_stdin use_stderr config_suffix kwargs
    = Return options →
  ∃ source regex,
    kwargs !! "output_regex" = Some source ∧
    re_compile source = Return regex ∧
    options !! "output_regex" = Some (VPattern regex) ∧
    options !! "severity_map" =
      match kwargs !! "severity_map" with
      | Some given => Some given
      | None =>
          if bool_decide ("severity" ∈ groupindex regex)
          then Some (VDict default_severity_map) else None
      end ∧
    ∀ given, kwargs !! "severity_map" = Some given →
             (∃ d, given = VDict d) ∧ "severity" ∈ groupindex regex.
Proof.
  intros HL. apply Linter_Return in HL. unfold check_regex_options in HL.
  rewrite initial_options_other in HL by (by apply (bool_decide_unpack _)).
  destruct (kwargs !! "output_regex") as [source|]; [|discriminate].
  destruct (re_compile source) as [regex|] eqn:Hc; [|discriminate].
  rewrite Return_bind in HL. cbv zeta in HL.
  rewrite lookup_insert_ne in HL by done.
  rewrite initial_options_other in HL by (by apply (bool_decide_unpack _)).
  exists source, regex. split; [done|]. split; [done|].
  destruct (kwargs !! "severity_map") as [given|] eqn:Hm.
  - case_bool_decide as Hin; [discriminate|].
    destruct given as [a|d|p]; try discriminate. injection HL as <-.
    split; [by rewrite lookup_insert_eq|].
    split.
    + rewrite lookup_insert_ne by done.
      by rewrite initial_options_other by (by apply (bool_decide_unpack _)).
    + intros given [= <-]. eauto.
  - case_bool_decide as Hin; injection HL as <-.
    + split; [by rewrite lookup_insert_ne, lookup_insert_eq|].
      split; [by rewrite lookup_insert_eq|done].
    + split; [by rewrite lookup_insert_eq|].
      split; [|done]. rewrite lookup_insert_ne by done.
      by rewrite initial_options_other by (by apply (bool_decide_unpack _)).
Qed.

(** Without [provides_correction]: the pattern stored is what
    [re.compile] made of the given one; a given [severity_map] is a
    dictionary, is kept as it is, and comes with a [severity] group;
    when none is given, the default map is installed exactly when the
    pattern declares a [severity] group. *)
Theorem severity_map_precedence `{PyEnv} executable use_stdin use_stderr
    config_suffix (kwargs : gmap string value) options :
  Linter executable false use_stdin use_stderr config_suffix kwargs
    = Return options →
  ∃ source regex,
    kwargs !! "output_regex" = Some source ∧
    re_compile source = Return regex ∧
    options !! "output_regex" = Some (VPattern regex) ∧
    options !! "severity_map" =
      match kwargs !! "severity_map" with
      | Some given => Some given
      | None =>
          if bool_decide ("severity" ∈ groupindex regex)
          then Some (VDict default_severity_map) else None
      end ∧
    ∀ given, kwargs !! "severity_map" = Some given →
             (∃ d, given = VDict d) ∧ "severity" ∈ groupindex regex.
Proof. apply Linter_regex_Return. Qed.

Lemma Linter_diff_Return `{PyEnv} executable use_stdin use_stderr
    config_suffix (kwargs : gmap string value) options :
  Linter executable true use_stdin use_stderr config_suffix kwargs
    = Return options →
  options !! "diff_severity"
    = Some (default (VInt NORMAL) (kwargs !! "diff_severity")) ∧
  options !! "diff_message"
    = Some (default (VStr "Inconsistency found.") (kwargs !! "diff_message")) ∧
  (∀ given, kwargs !! "diff_severity" = Some given →
            in_RESULT_SEVERITY_reverse given = Return true) ∧
  (∀ given, kwargs !! "diff_message" = Some given → ∃ s, given = VStr s).
Proof.
  intros HL. apply Linter_Return in HL. unfold check_diff_options in HL.
  rewrite initial_options_other in HL by (by apply (bool_decide_unpack _)).
  inv_bind HL. rename a into o1.
  assert (o1 !! "diff_severity"
            = Some (default (VInt NORMAL) (kwargs !! "diff_severity")) ∧
          o1 !! "diff_message" = kwargs !! "diff_message" ∧
          ∀ given, kwargs !! "diff_severity" = Some given →
                   in_RESULT_SEVERITY_reverse given = Return true)
    as (Hs & Hm & Hgiven).
  { destruct (kwargs !! "diff_severity") as [given|] eqn:Hk.
    - destruct (in_RESULT_SEVERITY_reverse given) as [[]|] eqn:Hin;
        try discriminate.
      injection Ha as <-.
      rewrite !initial_options_other by (by apply (bool_decide_unpack _)).
      rewrite Hk. split; [done|]. split; [done|]. by intros ? [= <-].
    - injection Ha as <-. rewrite lookup_insert_eq.
      rewrite lookup_insert_ne by done.
      rewrite initial_options_other by (by apply (bool_decide_unpack _)).
      done. }
  rewrite Hm in HL.
  destruct (kwargs !! "diff_message") as [given|] eqn:Hk.
  - destruct given as [[| | |s]| |]; try discriminate.
    injection HL as <-. rewrite Hm.
    split; [done|]. split; [done|]. split; [done|].
    intros ? [= <-]. eauto.
  - injection HL as <-. rewrite lookup_insert_eq.
    rewrite lookup_insert_ne by done. done.
Qed.

(** With [provides_correction]: the severity and the message of the
    results are the given ones, or NORMAL and [Inconsistency found.]
    when none is given; a given severity is one of the severity codes
    and a given message is a string. *)
Theorem diff_defaults `{PyEnv} executable use_stdin use_stderr
    config_suffix (kwargs : gmap string value) options :
  Linter executable true use_stdin use_stderr config_suffix kwargs
    = Return options →
  options !! "diff_severity"
    = Some (default (VInt NORMAL) (kwargs !! "diff_severity")) ∧
  options !! "diff_message"
    = Some (default (VStr "Inconsistency found.") (kwargs !! "diff_message")) ∧
  (∀ given, kwargs !! "diff_severity" = Some given →
            in_RESULT_SEVERITY_reverse given = Return true) ∧
  (∀ given, kwargs !! "diff_message" = Some given → ∃ s, given = VStr s).
Proof. apply Linter_diff_Return. Qed.

(** Whatever the mode, a successful call was given no option outside
    the allowed set of the mode, and the checked options hold none. *)
Lemma no_superfluous_options `{PyEnv} executable provides_correction
    use_stdin use_stderr config_suffix (kwargs : gmap string value) options :
  Linter executable provides_correction use_stdin use_stderr config_suffix
    kwargs = Return options →
  dom options ⊆ allowed_options_of provides_correction ∧
  dom kwargs ⊆ allowed_options_of provides_correction.
Proof.
  intros HL. pose proof HL as HL'. rewrite Linter_unfold in HL.
  inv_bind HL. case_bool_decide as Hsup; [discriminate|].
  injection HL as ->.
  assert (dom options ⊆ allowed_options_of provides_correction) as Hdom.
  { intros key Hk. destruct (decide (key ∈ allowed_options_of
                                       provides_correction)); [done|].
    assert (key ∈ dom options ∖ allowed_options_of provides_correction)
      as Hin by (by apply elem_of_difference).
    rewrite Hsup in Hin. by apply not_elem_of_empty in Hin. }
  split; [done|].
  intros key Hk.
  destruct (decide (key ∈ base_options)) as [Hb|Hb].
  { unfold allowed_options_of, diff_allowed_options, pattern_allowed_options.
    destruct provides_correction; by apply elem_of_union_l. }
  apply Hdom, elem_of_dom.
  destruct provides_correction.
  - apply check_diff_options_Return in Ha as (Hm & Hs & _ & Hother).
    destruct (decide (key = "diff_severity")) as [->|?]; [done|].
    destruct (decide (key = "diff_message")) as [->|?]; [done|].
    rewrite Hother, initial_options_other by done. by apply elem_of_dom.
  - apply check_regex_options_Return in Ha as (regex & Hr & Hm & Hother).
    destruct (decide (key = "output_regex")) as [->|?]; [by rewrite Hr|].
    destruct (decide (key = "severity_map")) as [->|?].
    + apply Linter_regex_Return in HL' as (? & ? & _ & _ & _ & -> & _).
      apply elem_of_dom in Hk as [given ->]. done.
    + rewrite Hother, initial_options_other by done. by apply elem_of_dom.
Qed.

(** ** Which calls pass the validation *)

(** With [provides_correction], the call succeeds exactly when every
    option given is one of the five parameters, [diff_severity] or
    [diff_message], a given [diff_severity] is one of the severity
    codes, and a given [diff_message] is a string. *)
Theorem diff_mode_accepts `{PyEnv} executable use_stdin use_stderr
    config_suffix (kwargs : gmap string value) :
  (∃ options,
     Linter executable true use_stdin use_stderr config_suffix kwargs
       = Return options)
  ↔ dom kwargs ⊆ diff_allowed_options ∧
    (∀ given, kwargs !! "diff_severity" = Some given →
              in_RESULT_SEVERITY_reverse given = Return true) ∧
    (∀ given, kwargs !! "diff_message" = Some given → ∃ s, given = VStr s).
Proof.
  split.
  - intros [options HL].
    destruct (no_superfluous_options _ _ _ _ _ _ _ HL) as [_ Hdom].
    destruct (Linter_diff_Return _ _ _ _ _ _ HL) as (_ & _ & Hs & Hm).
    done.
  - intros (Hdom & Hs & Hm). rewrite Linter_unfold.
    destruct (check_diff_options
                (initial_options executable true use_stdin use_stderr kwargs))
      as [o|e] eqn:Hc.
    + rewrite Return_bind.
      apply check_diff_options_Return in Hc as (_ & _ & Hd & _).
      rewrite bool_decide_eq_false_2; [by eexists|].
      intros Hne. apply Hne. apply set_eq. intros key.
      rewrite elem_of_difference, Hd, dom_initial_options.
      unfold allowed_options_of, diff_allowed_options in *.
      split; [|by intros ?%not_elem_of_empty].
      intros [[[Hk|Hk]%elem_of_union|Hk]%elem_of_union Hn]; exfalso;
        apply Hn.
      * by apply Hdom.
      * by apply elem_of_union_l.
      * by apply elem_of_union_r.
    + exfalso. unfold check_diff_options in Hc.
      rewrite initial_options_other in Hc by (by apply (bool_decide_unpack _)).
      destruct (kwargs !! "diff_severity") as [given|] eqn:Hk.
      * rewrite (Hs given eq_refl), Return_bind in Hc. simpl in Hc.
        rewrite initial_options_other in Hc
          by (by apply (bool_decide_unpack _)).
        destruct (kwargs !! "diff_message") as [w|] eqn:Hw; [|discriminate].
        destruct (Hm w eq_refl) as [s ->]. discriminate.
      * rewrite Return_bind in Hc. rewrite lookup_insert_ne in Hc by done.
        rewrite initial_options_other in Hc
          by (by apply (bool_decide_unpack _)).
        destruct (kwargs !! "diff_message") as [w|] eqn:Hw; [|discriminate].
        destruct (Hm w eq_refl) as [s ->]. discriminate.
Qed.

(** Without [provides_correction], the call succeeds exactly when an
    [output_regex] is given that [re.compile] accepts, every option
    given is one of the five parameters, [output_regex] or
    [severity_map], and a given [severity_map] is a dictionary and
    comes with a pattern that declares a [severity] group. *)
Theorem pattern_mode_accepts `{PyEnv} executable use_stdin use_stderr
    config_suffix (kwargs : gmap string value) :
  (∃ options,
     Linter executable false use_stdin use_stderr config_suffix kwargs
       = Return options)
  ↔ dom kwargs ⊆ pattern_allowed_options ∧
    ∃ source regex,
      kwargs !! "output_regex" = Some source ∧
      re_compile source = Return regex ∧
      ∀ given, kwargs !! "severity_map" = Some given →
               (∃ d, given = VDict d) ∧ "severity" ∈ groupindex regex.
Proof.
  split.
  - intros [options HL].
    destruct (no_superfluous_options _ _ _ _ _ _ _ HL) as [_ Hdom].
    destruct (Linter_regex_Return _ _ _ _ _ _ HL)
      as (source & regex & Hk & Hc & _ & _ & Hm).
    split; [done|]. by exists source, regex.
  - intros (Hdom & source & regex & Hk & Hc & Hm). rewrite Linter_unfold.
    destruct (check_regex_options
                (initial_options executable false use_stdin use_stderr kwargs))
      as [o|e] eqn:Hcheck.
    + rewrite Return_bind.
      rewrite bool_decide_eq_false_2; [by eexists|].
      intros Hne. apply Hne. apply set_eq. intros key.
      split; [|by intros ?%not_elem_of_empty].
      intros [Hin Hn]%elem_of_difference. exfalso. apply Hn.
      unfold allowed_options_of, pattern_allowed_options in *.
      apply check_regex_options_Return in Hcheck as (r & _ & _ & Hother).
      destruct (decide (key = "output_regex")) as [->|?];
        [by apply (bool_decide_unpack _)|].
      destruct (decide (key = "severity_map")) as [->|?];
        [by apply (bool_decide_unpack _)|].
      apply elem_of_dom in Hin. rewrite Hother in Hin by done.
      apply elem_of_dom in Hin. rewrite dom_initial_options in Hin.
      apply elem_of_union in Hin as [Hin|Hin];
        [by apply Hdom|by apply elem_of_union_l].
    + exfalso. unfold check_regex_options in Hcheck.
      rewrite initial_options_other in Hcheck
        by (by apply (bool_decide_unpack _)).
      rewrite Hk, Hc, Return_bind in Hcheck. cbv zeta in Hcheck.
      rewrite lookup_insert_ne in Hcheck by done.
      rewrite initial_options_other in Hcheck
        by (by apply (bool_decide_unpack _)).
      destruct (kwargs !! "severity_map") as [given|] eqn:Hg.
      * destruct (Hm given eq_refl) as [[d ->] Hin].
        rewrite bool_decide_eq_false_2 in Hcheck by (by intros ?).
        discriminate.
      * by case_bool_decide.
Qed.

(** * More about the conversion of a match *)

Section MoreConversion.
Context `{env : PyEnv}.

(** The result of a conversion, in full. *)
Lemma convert_Return_full options klass_name (m : Match) filename r :
  _convert_output_regex_match_to_result options klass_name m filename
    = Return r →
  ∃ severity_map groups z,
    options !! "severity_map" = Some severity_map ∧
    for_each convert_numeric (map_severity severity_map (capture <$> m))
      numeric_groups = Return groups ∧
    py_int (default (AInt NORMAL)
              (format_origin klass_name groups !! "severity")) = Return z ∧
    Result_from_values
      (from_option OriginValue OriginBear
         (format_origin klass_name groups !! "origin"))
      (default (AStr "") (format_origin klass_name groups !! "message"))
      filename z
      (default ANone (format_origin klass_name groups !! "line"))
      (default ANone (format_origin klass_name groups !! "column"))
      (default ANone (format_origin klass_name groups !! "end_line"))
      (default ANone (format_origin klass_name groups !! "end_column"))
      = Return r.
Proof.
  unfold _convert_output_regex_match_to_result. intros Hc.
  inv_bind Hc. rename a into severity_map. apply getitem_Return in Ha.
  inv_bind Hc. rename a into groups. inv_bind Hc. rename a into z.
  by exists severity_map, groups, z.
Qed.

(** A group that the loop and the severity map leave alone. *)
Lemma untouched_group severity_map klass_name (m : Match) groups key :
  for_each convert_numeric (map_severity severity_map (capture <$> m))
    numeric_groups = Return groups →
  key ∉ numeric_groups → key ≠ "severity" → key ≠ "origin" →
  format_origin klass_name groups !! key = capture <$> m !! key.
Proof.
  intros Hf Hn Hs Ho. rewrite format_origin_other by done.
  rewrite (for_each_numeric_other _ _ _ _ Hf Hn).
  by rewrite map_severity_other, lookup_fmap.
Qed.

Lemma numeric_field_converted severity_map klass_name (m : Match) groups
    variable :
  for_each convert_numeric (map_severity severity_map (capture <$> m))
    numeric_groups = Return groups →
  variable ∈ numeric_groups →
  is_position (default ANone (format_origin klass_name groups !! variable))
    = true →
  converted (m !! variable)
    (default ANone (format_origin klass_name groups !! variable)).
Proof.
  intros Hf Hv.
  rewrite format_origin_other
    by (intros ->; revert Hv; by apply (bool_decide_unpack _)).
  pose proof (for_each_numeric_lookup _ numeric_groups_NoDup _ _ _ Hf Hv)
    as Hl.
  rewrite numeric_group_lookup in Hl by done.
  unfold converted. destruct (m !! variable) as [[s|]|]; simpl in Hl.
  - destruct (String.eqb s "") eqn:Hs; simpl in Hl.
    + rewrite Hl. simpl. discriminate.
    + destruct Hl as (z & Hz & ->). intros _.
      exists z. split; [|done].
      destruct (int_of_str s); [|discriminate]. by injection Hz as ->.
  - by rewrite Hl.
  - by rewrite Hl.
Qed.

End MoreConversion.

(** In a diagnostic built from a match, the range is in the file under
    analysis and its four positions come from the four numeric groups:
    a group that is absent or took no part in the match leaves the
    position unset, and a group that captured text gives the integer
    that the text spells. *)
Theorem positions_of_match `{PyEnv} options klass_name (m : Match)
    filename r :
  _convert_output_regex_match_to_result options klass_name m filename
    = Return r →
  ∃ line column end_line end_column,
    affected_code r = [FromValues filename line column end_line end_column] ∧
    converted (m !! "line") line ∧
    converted (m !! "column") column ∧
    converted (m !! "end_line") end_line ∧
    converted (m !! "end_column") end_column.
Proof.
  intros Hc.
  apply convert_Return_full in Hc as (sm & groups & z & _ & Hf & _ & Hr).
  apply Result_from_values_Return in Hr as (-> & _ & _ & Hl & Hcol & Hel & Hec).
  do 4 eexists. split; [done|].
  repeat split; apply (numeric_field_converted sm); try done;
    by apply (bool_decide_unpack _).
Qed.

(** In a diagnostic built from a match, the message is a text: the
    empty one when the pattern has no [message] group, and otherwise
    what the group captured. *)
Theorem message_of_match `{PyEnv} options klass_name (m : Match) filename r :
  _convert_output_regex_match_to_result options klass_name m filename
    = Return r →
  ∃ text,
    message r = VStr text ∧
    match m !! "message" with
    | None => text = ""
    | Some c => c = Some text
    end.
Proof.
  intros Hc.
  apply convert_Return_full in Hc as (sm & groups & z & _ & Hf & _ & Hr).
  apply Result_from_values_Return in Hr as (-> & Htext & _).
  revert Htext. simpl.
  rewrite (untouched_group sm klass_name m groups "message" Hf);
    [|by apply (bool_decide_unpack _)|done..].
  destruct (m !! "message") as [[t|]|]; simpl; [by eauto|discriminate|by eauto].
Qed.

(** In a diagnostic built from a match, the origin is the bear itself
    when the pattern has no [origin] group, and otherwise the name of
    the decorated class followed, in parentheses, by [str] of what the
    group captured. *)
Theorem origin_of_match `{PyEnv} options klass_name (m : Match) filename r :
  _convert_output_regex_match_to_result options klass_name m filename
    = Return r →
  origin r = match m !! "origin" with
             | None => OriginBear
             | Some c =>
                 OriginValue
                   (AStr (klass_name +:+ " (" +:+ py_str (capture c) +:+ ")"))
             end.
Proof.
  intros Hc.
  apply convert_Return_full in Hc as (sm & groups & z & _ & Hf & _ & Hr).
  apply Result_from_values_Return in Hr as (-> & _).
  simpl.
  assert (groups !! "origin" = capture <$> m !! "origin") as Ho.
  { rewrite (for_each_numeric_other _ _ _ _ Hf)
      by (by apply (bool_decide_unpack _)).
    by rewrite map_severity_other, lookup_fmap. }
  unfold format_origin. rewrite Ho.
  destruct (m !! "origin") as [c|]; simpl.
  - by rewrite lookup_insert_eq.
  - by rewrite Ho.
Qed.

(** When the [severity] group is declared but takes no part in a match,
    and [None] is not a key of the severity map, the conversion of an
    otherwise well-formed match raises the [TypeError] of [int(None)]. *)
Theorem silent_severity_group `{PyEnv} options klass_name (m : Match)
    filename d :
  options !! "severity_map" = Some (VDict d) →
  m !! "severity" = Some None →
  d !! ANone = None →
  numeric_groups_fine m = true →
  _convert_output_regex_match_to_result options klass_name m filename
    = Raise (TypeError IntOfNone).
Proof.
  intros Hsm Hm Hd Hfine.
  unfold _convert_output_regex_match_to_result.
  apply getitem_Return in Hsm. rewrite Hsm, Return_bind. cbv zeta.
  destruct (numeric_groups_total (VDict d) m Hfine) as [groups Hf].
  rewrite Hf, Return_bind.
  assert (format_origin klass_name groups !! "severity" = Some ANone) as ->.
  { rewrite format_origin_other by done.
    rewrite (for_each_numeric_other _ _ _ _ Hf)
      by (by apply (bool_decide_unpack _)).
    unfold map_severity. rewrite lookup_fmap, Hm. simpl. rewrite Hd.
    by rewrite lookup_fmap, Hm. }
  done.
Qed.

(** * More about the generated class *)

(** In diff mode every hunk gives a diagnostic and no exception ends
    the sequence; each diagnostic comes from the bear itself, has the
    given message and severity, or [Inconsistency found.] and NORMAL
    when none is given, covers the range of its hunk, and carries that
    hunk alone, under the name of the file. *)
Theorem diff_results_uniform `{PyEnv} executable use_stdin use_stderr
    config_suffix (kwargs : gmap string value) options klass cls output
    filename file rs e :
  Linter executable true use_stdin use_stderr config_suffix kwargs
    = Return options →
  create_linter options klass = Return cls →
  _process_output cls output filename file = (rs, e) →
  e = None ∧
  Forall
    (λ r,
       origin r = OriginBear ∧
       message r
         = default (VStr "Inconsistency found.") (kwargs !! "diff_message") ∧
       severity r = default (VInt NORMAL) (kwargs !! "diff_severity") ∧
       ∃ diff, diffs r = {[filename := diff]} ∧
               affected_code r = [range filename diff])
    rs.
Proof.
  intros HL Hc Hp.
  destruct (create_linter_members _ _ _ _ _ _ _ _ _ HL Hc)
    as (_ & _ & Hpo & _).
  rewrite Hpo in Hp.
  destruct (Linter_diff_Return _ _ _ _ _ _ HL) as (Hs & Hm & _).
  unfold _process_output_diff in Hp.
  rewrite (yield_each_total _
             (diff_result
                (default (VStr "Inconsistency found.")
                   (kwargs !! "diff_message"))
                (default (VInt NORMAL) (kwargs !! "diff_severity"))
                filename)) in Hp.
  2: { intros h. apply getitem_Return in Hs, Hm. by rewrite Hm, Hs. }
  injection Hp as <- <-. split; [done|].
  apply Forall_fmap, Forall_forall. intros h _. simpl. eauto 10.
Qed.

(** In pattern mode, an output in which the pattern matches nowhere
    gives no diagnostic and no exception. *)
Theorem no_match_no_result `{PyEnv} executable use_stdin use_stderr
    config_suffix (kwargs : gmap string value) options klass cls regex
    output filename file :
  Linter executable false use_stdin use_stderr config_suffix kwargs
    = Return options →
  create_linter options klass = Return cls →
  options !! "output_regex" = Some (VPattern regex) →
  finditer regex output = [] →
  _process_output cls output filename file = ([], None).
Proof.
  intros HL Hc Hr Hf.
  destruct (create_linter_members _ _ _ _ _ _ _ _ _ HL Hc)
    as (_ & _ & -> & _).
  unfold _process_output_regex. apply getitem_Return in Hr.
  by rewrite Hr, Hf.
Qed.

(** [run], with the members of the class resolved. *)
Lemma run_unfold `{PyEnv} executable provides_correction use_stdin
    use_stderr config_suffix kwargs options klass cls machine filename file
    settings :
  Linter executable provides_correction use_stdin use_stderr config_suffix
    kwargs = Return options →
  create_linter options klass = Return cls →
  run cls machine filename file settings =
    ('(config_file, files) ←
       _create_config cls machine filename file settings;
     finished ←
       spawn machine files
         (VStr executable ::
            (VAtom ∘ AStr
               <$> create_arguments klass filename file config_file settings))
         (if use_stdin then Some file else None);
     Return (_process_output cls (selected use_stderr finished)
               filename file)).
Proof.
  intros HL Hc.
  destruct (create_linter_members _ _ _ _ _ _ _ _ _ HL Hc)
    as (Hi & He & _ & Hg & Hs).
  unfold run.
  destruct (_create_config cls machine filename file settings)
    as [[config_file files]|err]; [|done].
  rewrite !Return_bind. unfold _execute_command, run_shell_command.
  rewrite He, Hi, Hs, Hg, Return_bind.
  replace ((if use_stdin then λ file0 : list string, Some file0
            else λ _ : list string, None) file)
    with (if use_stdin then Some file else None)
    by (by destruct use_stdin).
  destruct (spawn machine files _ _) as [finished|err]; [|done].
  rewrite !Return_bind. unfold selected. by destruct use_stderr.
Qed.

(** When [generate_config] returns nothing, no temporary file is asked
    for: the tool is started once, with no temporary file, the
    executable followed by the arguments made without a configuration
    file, and the file on its input only when [use_stdin] is set; its
    failure to start is the failure of the run, and otherwise the run
    gives the diagnostics of the selected stream. *)
Theorem run_without_config `{PyEnv} executable provides_correction use_stdin
    use_stderr config_suffix kwargs options klass cls machine filename file
    settings :
  Linter executable provides_correction use_stdin use_stderr config_suffix
    kwargs = Return options →
  create_linter options klass = Return cls →
  generate_config klass filename file settings = None →
  run cls machine filename file settings =
    (finished ←
       spawn machine ∅
         (VStr executable ::
            (VAtom ∘ AStr
               <$> create_arguments klass filename file None settings))
         (if use_stdin then Some file else None);
     Return (_process_output cls (selected use_stderr finished)
               filename file)).
Proof.
  intros HL Hc Hg. rewrite (run_unfold _ _ _ _ _ _ _ _ _ _ _ _ _ HL Hc).
  destruct (create_linter_members _ _ _ _ _ _ _ _ _ HL Hc) as (Hi & _).
  unfold _create_config. by rewrite Hi, Hg.
Qed.

(** When [generate_config] returns content, one temporary file is asked
    for, and a failure to make it is the failure of the run, before any
    process is started; otherwise the tool is started once, while that
    file holds the content, with the path of the file given to
    [create_arguments]. *)
Theorem run_with_config `{PyEnv} executable provides_correction use_stdin
    use_stderr config_suffix kwargs options klass cls machine filename file
    settings content :
  Linter executable provides_correction use_stdin use_stderr config_suffix
    kwargs = Return options →
  create_linter options klass = Return cls →
  generate_config klass filename file settings = Some content →
  run cls machine filename file settings =
    (config_file ← make_temp machine (VBool use_stderr);
     finished ←
       spawn machine {[config_file := content]}
         (VStr executable ::
            (VAtom ∘ AStr
               <$> create_arguments klass filename file (Some config_file)
                     settings))
         (if use_stdin then Some file else None);
     Return (_process_output cls (selected use_stderr finished)
               filename file)).
Proof.
  intros HL Hc Hg. rewrite (run_unfold _ _ _ _ _ _ _ _ _ _ _ _ _ HL Hc).
  destruct (create_linter_members _ _ _ _ _ _ _ _ _ HL Hc) as (Hi & _).
  pose proof (Linter_base_options _ _ _ _ _ _ _ HL) as (_ & _ & _ & _ & Hs).
  unfold _create_config. rewrite Hi, Hg.
  assert (closure_options cls = options) as ->.
  { unfold create_linter in Hc. do 3 inv_bind Hc. by injection Hc as <-. }
  apply getitem_Return in Hs. rewrite Hs, Return_bind.
  by destruct (make_temp machine (VBool use_stderr)).
Qed.

(** The diff of a sequence of lines with itself keeps every line, and
    has no hunk. *)
Lemma from_string_arrays_same lines :
  from_string_arrays lines lines = Keep <$> lines.
Proof.
  induction lines as [|x lines IH]; [done|].
  change (from_string_arrays (x :: lines) (x :: lines)) with
    (if decide (x = x) then Keep x :: from_string_arrays lines lines
     else
       let deleting := Delete x :: from_string_arrays lines (x :: lines) in
       let inserting := Insert x :: from_string_arrays (x :: lines) lines in
       if decide (kept inserting ≤ kept deleting)%nat
       then deleting else inserting).
  rewrite decide_True by done. by rewrite IH.
Qed.

Lemma split_from_Keep lines start :
  split_from start 0 [] (Keep <$> lines) = [].
Proof.
  revert start. induction lines as [|x lines IH]; intros start; [done|].
  csimpl. apply IH.
Qed.

(** In diff mode, an output whose lines are the lines of the file gives
    no diagnostic. *)
Theorem unchanged_output_no_result `{PyEnv} executable use_stdin use_stderr
    config_suffix (kwargs : gmap string value) options klass cls output
    filename file :
  Linter executable true use_stdin use_stderr config_suffix kwargs
    = Return options →
  create_linter options klass = Return cls →
  splitlines output = file →
  _process_output cls output filename file = ([], None).
Proof.
  intros HL Hc <-.
  destruct (create_linter_members _ _ _ _ _ _ _ _ _ HL Hc)
    as (_ & _ & -> & _).
  unfold _process_output_diff, split_diff.
  by rewrite from_string_arrays_same, split_from_Keep.
Qed.

(** * The further properties on the examples *)

(** [@Linter("xlint")] *)
Lemma missing_output_regex_witness :
  Linter "xlint" false false false "" ∅ = Raise (ValueError NoOutputRegex).
Proof. apply missing_output_regex. apply lookup_empty. Defined.

(** [@Linter("xlint", output_regex="(")] *)
Lemma uncompilable_output_regex_witness :
  Linter "xlint" false false false "" {["output_regex" := VStr "("]}
  = Raise (ReError "(").
Proof.
  apply (uncompilable_output_regex _ _ _ _ _ (VStr "(")).
  - apply lookup_singleton_eq.
  - vm_compute. exact eq_refl.
Defined.

(** [@Linter("xlint", output_regex=r"(?P<line>\w+): (?P<message>.+)",
             severity_map={})] *)
Lemma unused_severity_map_witness :
  Linter "xlint" false false false ""
    (<["severity_map" := VDict ∅]> plain_kwargs)
  = Raise (ValueError SeverityMapUnused).
Proof.
  apply (unused_severity_map _ _ _ _ _
           (VStr "(?P<line>\w+): (?P<message>.+)") plain_pattern).
  - vm_compute. exact eq_refl.
  - vm_compute. exact eq_refl.
  - exists (VDict ∅). apply lookup_insert_eq.
  - apply (bool_decide_unpack _). vm_compute. exact I.
Defined.

(** A [severity_map] that is a string. *)
Lemma severity_map_must_be_a_dict_witness :
  Linter "xlint" false false false ""
    (<["severity_map" := VStr "error"]> located_kwargs)
  = Raise (TypeError (WrongType "severity_map")).
Proof.
  apply (severity_map_must_be_a_dict _ _ _ _ _
           (VStr "(?P<line>\d+):(?P<column>\d+): (?P<severity>\w+): (?P<message>.+)")
           located_pattern (VStr "error")).
  - vm_compute. exact eq_refl.
  - vm_compute. exact eq_refl.
  - apply (bool_decide_unpack _). vm_compute. exact I.
  - apply lookup_insert_eq.
  - discriminate.
Defined.

(** [@Linter("xfix", provides_correction=True, diff_severity=7)] *)
Lemma invalid_diff_severity_witness :
  Linter "xfix" true false false "" {["diff_severity" := VInt 7]}
  = Raise (TypeError (InvalidDiffSeverity (VInt 7))).
Proof.
  apply invalid_diff_severity.
  - apply lookup_singleton_eq.
  - vm_compute. exact eq_refl.
Defined.

(** No map is given and the pattern declares a [severity] group. *)
Lemma severity_map_precedence_witness :
  ∃ source regex,
    located_kwargs !! "output_regex" = Some source ∧
    re_compile source = Return regex ∧
    located_options !! "output_regex" = Some (VPattern regex) ∧
    located_options !! "severity_map" =
      match located_kwargs !! "severity_map" with
      | Some given => Some given
      | None =>
          if bool_decide ("severity" ∈ groupindex regex)
          then Some (VDict default_severity_map) else None
      end ∧
    ∀ given, located_kwargs !! "severity_map" = Some given →
             (∃ d, given = VDict d) ∧ "severity" ∈ groupindex regex.
Proof. exact (severity_map_precedence _ _ _ _ _ _ Linter_located). Defined.

(** Neither a severity nor a message is given. *)
Lemma diff_defaults_witness :
  xfix_options !! "diff_severity" = Some (VInt NORMAL) ∧
  xfix_options !! "diff_message" = Some (VStr "Inconsistency found.").
Proof.
  destruct (diff_defaults _ _ _ _ _ _ Linter_xfix) as (Hs & Hm & _).
  rewrite lookup_empty in Hs, Hm. by split.
Defined.

(** Line 3, column 5, and no end. *)
Lemma positions_of_match_witness :
  ∃ r,
    _convert_output_regex_match_to_result located_options "XLintBear"
      {["line" := Some "3"; "column" := Some "5";
        "severity" := Some "warning"; "message" := Some "unused variable"]}
      "a.c" = Return r ∧
    affected_code r = [FromValues "a.c" (AInt 3) (AInt 5) ANone ANone].
Proof.
  eexists. split; [vm_compute; exact eq_refl|].
  edestruct (positions_of_match located_options "XLintBear"
               {["line" := Some "3"; "column" := Some "5";
                 "severity" := Some "warning";
                 "message" := Some "unused variable"]} "a.c")
    as (l & c & el & ec & Hr & _); [vm_compute; exact eq_refl|].
  vm_compute. exact eq_refl.
Defined.

Lemma message_of_match_witness :
  ∃ r,
    _convert_output_regex_match_to_result located_options "XLintBear"
      {["line" := Some "3"; "column" := Some "5";
        "severity" := Some "warning"; "message" := Some "unused variable"]}
      "a.c" = Return r ∧
    message r = VStr "unused variable".
Proof.
  eexists. split; [vm_compute; exact eq_refl|].
  edestruct (message_of_match located_options "XLintBear"
               {["line" := Some "3"; "column" := Some "5";
                 "severity" := Some "warning";
                 "message" := Some "unused variable"]} "a.c")
    as (text & Hmsg & Htext); [vm_compute; exact eq_refl|].
  vm_compute in Htext. injection Htext as <-. exact Hmsg.
Defined.

(** The pattern declares no [origin] group. *)
Lemma origin_of_match_witness :
  ∃ r,
    _convert_output_regex_match_to_result located_options "XLintBear"
      {["line" := Some "3"; "column" := Some "5";
        "severity" := Some "warning"; "message" := Some "unused variable"]}
      "a.c" = Return r ∧
    origin r = OriginBear.
Proof.
  eexists. split; [vm_compute; exact eq_refl|].
  rewrite (origin_of_match located_options "XLintBear"
             {["line" := Some "3"; "column" := Some "5";
               "severity" := Some "warning";
               "message" := Some "unused variable"]} "a.c");
    vm_compute; exact eq_refl.
Defined.

Lemma Linter_optional :
  Linter "xlint" false false false "" optional_kwargs
  = Return optional_options.
Proof. vm_compute. exact eq_refl. Qed.

(** The optional [severity] group takes no part in the match of
    [unused]. *)
Lemma silent_severity_group_witness :
  _convert_output_regex_match_to_result optional_options "XLintBear"
    {["severity" := None; "message" := Some "unused"]} "a.c"
  = Raise (TypeError IntOfNone).
Proof.
  apply (silent_severity_group optional_options "XLintBear" _ "a.c"
           default_severity_map);
    vm_compute; exact eq_refl.
Defined.

(** The second of three lines is replaced. *)
Lemma diff_results_uniform_witness :
  ∃ cls rs,
    create_linter xfix_options XLintBear = Return cls ∧
    _process_output cls (ln "a" +:+ ln "X" +:+ ln "c") "a.c"
      [ln "a"; ln "b"; ln "c"] = (rs, None) ∧
    Forall
      (λ r,
         origin r = OriginBear ∧
         message r = VStr "Inconsistency found." ∧
         severity r = VInt NORMAL ∧
         ∃ diff, diffs r = {["a.c" := diff]} ∧
                 affected_code r = [range "a.c" diff])
      rs.
Proof.
  destruct (create_linter_Return _ _ _ _ _ _ _ XLintBear Linter_xfix)
    as [cls Hcls].
  destruct (_process_output cls (ln "a" +:+ ln "X" +:+ ln "c") "a.c"
              [ln "a"; ln "b"; ln "c"]) as [rs e] eqn:Hp.
  destruct (diff_results_uniform _ _ _ _ _ _ _ _ _ _ _ _ _
              Linter_xfix Hcls Hp) as [-> Hall].
  by exists cls, rs.
Defined.

(** Nothing in [all good] matches. *)
Lemma no_match_no_result_witness :
  ∃ cls,
    create_linter plain_options XLintBear = Return cls ∧
    _process_output cls "all good" "a.c" [] = ([], None).
Proof.
  destruct (create_linter_Return _ _ _ _ _ _ _ XLintBear Linter_plain)
    as [cls Hcls].
  exists cls. split; [exact Hcls|].
  apply (no_match_no_result _ _ _ _ _ _ _ _ plain_pattern _ _ _
           Linter_plain Hcls); vm_compute; exact eq_refl.
Defined.

Lemma unchanged_output_no_result_witness :
  ∃ cls,
    create_linter xfix_options XLintBear = Return cls ∧
    _process_output cls (ln "a" +:+ ln "b") "a.c" [ln "a"; ln "b"]
    = ([], None).
Proof.
  destruct (create_linter_Return _ _ _ _ _ _ _ XLintBear Linter_xfix)
    as [cls Hcls].
  exists cls. split; [exact Hcls|].
  apply (unchanged_output_no_result _ _ _ _ _ _ _ _ _ _ _
           Linter_xfix Hcls). vm_compute. exact eq_refl.
Defined.

(** [XLintBear] generates no configuration. *)
Lemma run_without_config_witness :
  ∃ cls,
    create_linter located_options XLintBear = Return cls ∧
    run cls complaining "a.c" [] ∅ =
      (finished ←
         spawn complaining ∅ [VStr "xlint"; VStr "--lint"; VStr "a.c"] None;
       Return (_process_output cls (selected false finished) "a.c" [])).
Proof.
  destruct (create_linter_Return _ _ _ _ _ _ _ XLintBear Linter_located)
    as [cls Hcls].
  exists cls. split; [exact Hcls|].
  apply (run_without_config _ _ _ _ _ _ _ _ _ _ _ _ _
           Linter_located Hcls). exact eq_refl.
Defined.

(** [XConfigBear] generates a configuration. *)
Lemma run_with_config_witness :
  ∃ cls,
    create_linter plain_options XConfigBear = Return cls ∧
    run cls complaining "a.c" [] ∅ =
      (config_file ← make_temp complaining (VBool false);
       finished ←
         spawn complaining {[config_file := "<xlint></xlint>"]}
           [VStr "xlint"; VStr "--lint"; VStr "a.c"; VStr "--config";
            VStr config_file] None;
       Return (_process_output cls (selected false finished) "a.c" [])).
Proof.
  destruct (create_linter_Return _ _ _ _ _ _ _ XConfigBear Linter_plain)
    as [cls Hcls].
  exists cls. split; [exact Hcls|].
  apply (run_with_config _ _ _ _ _ _ _ _ _ _ _ _ _ _
           Linter_plain Hcls). exact eq_refl.
Defined.
